(** * Session and authentication layer of the incident-reporting application

    A shallow embedding of the authentication code (token utilities, session
    lookup, login / registration / logout actions, form handlers) and of the
    user repository helpers, together with the properties stated for them.

    Conventions of the embedding:
    - a JavaScript string is a [string]; each character stands for one code
      unit, so [String.length] is the [.length] of the source (code units
      above 255 are outside the model);
    - [async] functions are run to completion one after another, so an
      awaited call is an ordinary monadic bind;
    - an exception is a [Throw] result of the monad [M]; effects performed
      before the exception stay in the state, as in the source;
    - the third-party packages (jsonwebtoken, bcryptjs, the ORM's id
      generator) and the process environment are operations of the class
      [Platform]; what is assumed of them is stated as explicit laws. *)

From Stdlib Require Import ZArith Ascii String List Bool Lia.
From stdpp Require Import base option gmap strings.

Local Open Scope string_scope.
Local Open Scope Z_scope.
Local Open Scope list_scope.

(** ** Regular expressions

    The email check of the source is a regular expression literal; it is kept
    as data and run by a derivative-based matcher. *)
Module Regex.

Inductive regex : Type :=
| Void
| Eps
| Chr (c : ascii)                      (* a literal character *)
| NoneOf (excluded : ascii -> bool)    (* a negated class [^...] *)
| Alt (r1 r2 : regex)
| Cat (r1 r2 : regex)
| Star (r : regex).

(** [r+] *)
Definition Plus (r : regex) : regex := Cat r (Star r).

(** The words of a regular expression. *)
Inductive matches : regex -> list ascii -> Prop :=
| MEps : matches Eps []
| MChr c : matches (Chr c) [c]
| MNoneOf f c : f c = false -> matches (NoneOf f) [c]
| MAltL r1 r2 s : matches r1 s -> matches (Alt r1 r2) s
| MAltR r1 r2 s : matches r2 s -> matches (Alt r1 r2) s
| MCat r1 r2 s1 s2 :
    matches r1 s1 -> matches r2 s2 -> matches (Cat r1 r2) (s1 ++ s2)
| MStar0 r : matches (Star r) []
| MStarS r s1 s2 :
    matches r s1 -> matches (Star r) s2 -> matches (Star r) (s1 ++ s2).

Fixpoint nullable (r : regex) : bool :=
  match r with
  | Void => false
  | Eps => true
  | Chr _ => false
  | NoneOf _ => false
  | Alt r1 r2 => nullable r1 || nullable r2
  | Cat r1 r2 => nullable r1 && nullable r2
  | Star _ => true
  end.

Fixpoint deriv (a : ascii) (r : regex) : regex :=
  match r with
  | Void => Void
  | Eps => Void
  | Chr c => if Ascii.eqb a c then Eps else Void
  | NoneOf f => if f a then Void else Eps
  | Alt r1 r2 => Alt (deriv a r1) (deriv a r2)
  | Cat r1 r2 =>
      if nullable r1
      then Alt (Cat (deriv a r1) r2) (deriv a r2)
      else Cat (deriv a r1) r2
  | Star r1 => Cat (deriv a r1) (Star r1)
  end.

(** Whole-input match: the pattern is anchored by [^] and [$]. *)
Fixpoint matchb (r : regex) (s : list ascii) : bool :=
  match s with
  | [] => nullable r
  | a :: s' => matchb (deriv a r) s'
  end.

(** [RegExp.prototype.test] for a pattern of the form [/^r$/]. *)
Definition test (r : regex) (s : string) : bool :=
  matchb r (list_ascii_of_string s).

End Regex.

(** ** JavaScript values *)
Module Js.

(** [!v] for a value that is a string, [null] or [undefined]: the empty
    string and the missing value are falsy. *)
Definition falsy (v : option string) : bool :=
  match v with
  | None => true
  | Some s => String.eqb s ""
  end.

(** [a || b] on strings-or-undefined. *)
Definition or_else (v : option string) (d : string) : string :=
  match v with
  | Some s => if String.eqb s "" then d else s
  | None => d
  end.

End Js.

(** ** The token package (jsonwebtoken) *)
Module Jwt.

(** The object handed to [sign]: [{ id, email, name }].  A property whose
    value is [undefined] is left out of the token, and is [undefined] again
    in the decoded payload. *)
Record Claims := { id : option string; email : string; name : option string }.

(** The object returned by [verify]: the signed claims together with the
    issued-at and expiry times (seconds) added by [sign]. *)
Record Payload := { claims : Claims; iat : Z; exp : Z }.

(** [expiresIn] values such as ['30d']. *)
Inductive timespan := Seconds (n : Z) | Minutes (n : Z) | Hours (n : Z) | Days (n : Z).

Definition seconds_of (t : timespan) : Z :=
  match t with
  | Seconds n => n
  | Minutes n => n * 60
  | Hours n => n * 60 * 60
  | Days n => n * 24 * 60 * 60
  end.

(** The errors [verify] throws. *)
Inductive error :=
| JsonWebTokenError (message : string)   (* malformed token, invalid signature, ... *)
| TokenExpiredError
| NotBeforeError.

Inductive outcome := Decoded (p : Payload) | Fails (e : error).

End Jwt.

(** ** Packages and process environment the code runs against *)
Class Platform := {
(** [process.env.JWT_SECRET], [process.env.NODE_ENV] *)
env_JWT_SECRET : option string;
env_NODE_ENV : option string;
(** [sign(payload, secret, { expiresIn })] at a given time *)
jwt_sign : Jwt.Claims -> string -> Jwt.timespan -> Z -> string;
(** [verify(token, secret)] at a given time *)
jwt_verify : string -> string -> Z -> Jwt.outcome;
(** [bcrypt.genSalt(rounds)], drawing on a source of randomness *)
bcrypt_genSalt : nat -> nat -> string;
(** [bcrypt.hash(password, salt)] *)
bcrypt_hash : string -> string -> string;
(** [bcrypt.compare(password, digest)] *)
bcrypt_compare : string -> string -> bool;
(** the store's [uuid()] default, drawing on a source of randomness *)
uuid : nat -> string
}.

(** What is assumed of the token package: a token signed with a non-empty
    secret verifies under the same secret before its expiry and decodes to the
    signed claims. *)
Definition jwt_sign_verify_law `{Platform} : Prop :=
  forall (c : Jwt.Claims) (secret : string) (span : Jwt.timespan) (t0 t : Z),
    secret <> "" ->
    t < t0 + Jwt.seconds_of span ->
    jwt_verify (jwt_sign c secret span t0) secret t =
    Jwt.Decoded {| Jwt.claims := c; Jwt.iat := t0; Jwt.exp := t0 + Jwt.seconds_of span |}.

(** The empty string is never a valid token. *)
Definition jwt_verify_empty_law `{Platform} : Prop :=
  forall (secret : string) (t : Z) (p : Jwt.Payload),
    jwt_verify "" secret t <> Jwt.Decoded p.

(** A token is rejected as expired from its expiry time on. *)
Definition jwt_expiry_law `{Platform} : Prop :=
  forall (c : Jwt.Claims) (secret : string) (span : Jwt.timespan) (t0 t : Z),
    secret <> "" ->
    t0 + Jwt.seconds_of span <= t ->
    jwt_verify (jwt_sign c secret span t0) secret t = Jwt.Fails Jwt.TokenExpiredError.

(** What is assumed of the password package: a password compares equal to
    its own digest under a generated salt. *)
Definition bcrypt_hash_compare_law `{Platform} : Prop :=
  forall (password : string) (rounds n : nat),
    bcrypt_compare password (bcrypt_hash password (bcrypt_genSalt rounds n)) = true.

(** ** The persisted schema: the User table *)
Module Schema.

(** A row of [model User]; its key is [user_id]. *)
Record User := {
  user_id : string;
  email : string;
  name : option string;
  password : string;
  createdAt : Z;
  updatedAt : Z
}.

(** [row.id]: a row has no property of that name, so reading it yields
    [undefined]. *)
Definition id (u : User) : option string := None.

End Schema.

(** ** Cookies and responses of the web framework *)
Module Next.

(** The attributes of a cookie. *)
Record CookieOptions := {
  httpOnly : bool;
  secure : bool;
  sameSite : string;
  path : string;
  maxAge : Z
}.

Record Cookie := { value : string; options : CookieOptions }.

(** A [Set-Cookie] directive carried by a response. *)
Inductive directive :=
| SetCookie (name : string) (c : Cookie)
| DeleteCookie (name : string).

Definition apply_directive (j : gmap string Cookie) (d : directive) : gmap string Cookie :=
  match d with
  | SetCookie n c => <[n := c]> j
  | DeleteCookie n => delete n j
  end.

(** [NextResponse]: status, JSON body and cookie directives. *)
Record Response (B : Type) := {
  status : nat;
  body : B;
  cookies : list directive
}.
Arguments status {B} _.
Arguments body {B} _.
Arguments cookies {B} _.

(** [NextResponse.json(body, { status })]; the status defaults to 200. *)
Definition json {B} (b : B) (st : nat) : Response B :=
  {| status := st; body := b; cookies := [] |}.

(** [response.cookies.set({ name, value, ...options })] *)
Definition response_cookies_set {B} (r : Response B) (n v : string) (o : CookieOptions)
  : Response B :=
  {| status := status r; body := body r;
     cookies := cookies r ++ [SetCookie n {| value := v; options := o |}] |}.

(** [response.cookies.delete(name)] *)
Definition response_cookies_delete {B} (r : Response B) (n : string) : Response B :=
  {| status := status r; body := body r; cookies := cookies r ++ [DeleteCookie n] |}.

(** The browser applying the directives of a response to its cookies. *)
Definition deliver {B} (r : Response B) (j : gmap string Cookie) : gmap string Cookie :=
  fold_left apply_directive (cookies r) j.

End Next.

(** ** The state the code runs in *)
Record World := mkWorld {
  users : list Schema.User;           (* the User table *)
  queries : nat;                      (* store round-trips made so far *)
  outage : nat -> bool;               (* which round-trips the store fails *)
  jar : gmap string Next.Cookie;      (* the cookies of the session *)
  clock : Z;                          (* current time, seconds *)
  entropy : nat;                      (* randomness drawn so far *)
  console : list string               (* lines written to the console *)
}.

Definition set_users (us : list Schema.User) (w : World) : World :=
  mkWorld us (queries w) (outage w) (jar w) (clock w) (entropy w) (console w).
Definition set_queries (n : nat) (w : World) : World :=
  mkWorld (users w) n (outage w) (jar w) (clock w) (entropy w) (console w).
Definition set_jar (j : gmap string Next.Cookie) (w : World) : World :=
  mkWorld (users w) (queries w) (outage w) j (clock w) (entropy w) (console w).
Definition set_clock (t : Z) (w : World) : World :=
  mkWorld (users w) (queries w) (outage w) (jar w) t (entropy w) (console w).
Definition set_entropy (n : nat) (w : World) : World :=
  mkWorld (users w) (queries w) (outage w) (jar w) (clock w) n (console w).
Definition set_console (c : list string) (w : World) : World :=
  mkWorld (users w) (queries w) (outage w) (jar w) (clock w) (entropy w) c.

(** Time passing between two requests. *)
Definition advance (d : Z) (w : World) : World := set_clock (clock w + d) w.

(** ** Exceptions and the monad of effects *)
Inductive exn :=
| PrismaError (code : string)      (* thrown by the store client *)
| JwtError (e : Jwt.error).        (* thrown by the token package *)

Inductive result (A : Type) := Ok (a : A) | Throw (e : exn).
Arguments Ok {A} a.
Arguments Throw {A} e.

Definition M (A : Type) : Type := World -> result A * World.

Definition ret {A} (a : A) : M A := fun w => (Ok a, w).
Definition throw {A} (e : exn) : M A := fun w => (Throw e, w).
Definition bind {A B} (m : M A) (k : A -> M B) : M B :=
  fun w => match m w with
           | (Ok a, w') => k a w'
           | (Throw e, w') => (Throw e, w')
           end.

(** [try { body } catch (error) { handler }] *)
Definition try_catch {A} (body : M A) (handler : exn -> M A) : M A :=
  fun w => match body w with
           | (Ok a, w') => (Ok a, w')
           | (Throw e, w') => handler e w'
           end.

Declare Scope eff_scope.
Delimit Scope eff_scope with eff.
Notation "x <- m ;; k" := (bind m (fun x => k))
  (at level 100, m at next level, right associativity) : eff_scope.
Notation "m ;;; k" := (bind m (fun _ => k))
  (at level 100, right associativity) : eff_scope.
Local Open Scope eff_scope.

Definition get {A} (f : World -> A) : M A := fun w => (Ok (f w), w).
Definition modify (f : World -> World) : M unit := fun w => (Ok tt, f w).

(** [console.log] / [console.error]: the label of the line is recorded. *)
Definition console_log (line : string) : M unit :=
  modify (fun w => set_console (console w ++ [line]) w).

(** A computation never raises when every run ends in [Ok]. *)
Definition never_raises {A} (m : M A) : Prop :=
  forall w, exists a w', m w = (Ok a, w').

(** ** Control transfers

    [redirect(url)] of the framework and [throw new Error(message)] leave the
    function like an exception does; they are kept apart from the exceptions
    the code catches. *)
Inductive abort :=
| Uncaught (e : exn)                (* an exception of [M] left uncaught *)
| NextRedirect (url : string)       (* [redirect(url)] *)
| JsError (message : string).       (* [throw new Error(message)] *)

Inductive completion (A : Type) := Returns (a : A) | Aborts (s : abort).
Arguments Returns {A} a.
Arguments Aborts {A} s.

Definition C (A : Type) : Type := World -> completion A * World.

Definition cret {A} (a : A) : C A := fun w => (Returns a, w).
Definition cabort {A} (s : abort) : C A := fun w => (Aborts s, w).
Definition cbind {A B} (m : C A) (k : A -> C B) : C B :=
  fun w => match m w with
           | (Returns a, w') => k a w'
           | (Aborts s, w') => (Aborts s, w')
           end.

(** An awaited call of a function that can only return or throw. *)
Definition lift {A} (m : M A) : C A :=
  fun w => match m w with
           | (Ok a, w') => (Returns a, w')
           | (Throw e, w') => (Aborts (Uncaught e), w')
           end.

(** [redirect(url)] never returns. *)
Definition redirect {A} (url : string) : C A := cabort (NextRedirect url).

(** The cookie store of the current request: [(await cookies())]. *)
Module CookieStore.

(** [cookieStore.get(name)?.value] *)
Definition get_value (n : string) : M (option string) :=
  get (fun w => Next.value <$> jar w !! n).

(** [cookieStore.set({ name, value, ...options })] *)
Definition set (n v : string) (o : Next.CookieOptions) : M unit :=
  modify (fun w => set_jar (<[n := {| Next.value := v; Next.options := o |}]> (jar w)) w).

(** [cookieStore.delete(name)] *)
Definition delete (n : string) : M unit :=
  modify (fun w => set_jar (base.delete n (jar w)) w).

End CookieStore.

(** ** The store client: [prisma.user] *)
Module Prisma.

Inductive UserWhereUnique := WhereId (id : string) | WhereEmail (email : string).

Definition selects (wh : UserWhereUnique) (u : Schema.User) : bool :=
  match wh with
  | WhereId i => String.eqb (Schema.user_id u) i
  | WhereEmail e => String.eqb (Schema.email u) e
  end.

(** Every operation is one round-trip; a failed round-trip throws and
    leaves the table as it was. *)
Definition round_trip {A} (k : M A) : M A :=
  fun w =>
    let n := queries w in
    let w1 := set_queries (S n) w in
    if outage w n then (Throw (PrismaError "P1001"), w1) else k w1.

(** The row of the table a unique key designates, if any. *)
Definition lookup (wh : UserWhereUnique) (w : World) : option Schema.User :=
  List.find (selects wh) (users w).

(** [prisma.user.findUnique({ where })] *)
Definition user_findUnique (wh : UserWhereUnique) : M (option Schema.User) :=
  round_trip (get (lookup wh)).

Module Create.
Record data := { name : option string; email : string; password : string }.
End Create.

(** [prisma.user.create({ data })]: the email is unique (P2002 otherwise);
    the id is drawn by [uuid()], the timestamps are the current time. *)
Definition user_create `{Platform} (d : Create.data) : M Schema.User :=
  round_trip (
    us <- get users ;;
    if existsb (selects (WhereEmail (Create.email d))) us
    then throw (PrismaError "P2002")
    else
      n <- get entropy ;;
      modify (set_entropy (S n)) ;;;
      now <- get clock ;;
      let row := {| Schema.user_id := uuid n;
                    Schema.email := Create.email d;
                    Schema.name := Create.name d;
                    Schema.password := Create.password d;
                    Schema.createdAt := now;
                    Schema.updatedAt := now |} in
      modify (set_users (us ++ [row])) ;;;
      ret row).

Module Update.
(** [Partial<{ name; email; password }>] *)
Record data := {
  name : option string;
  email : option string;
  password : option string
}.
End Update.

Definition patch (d : Update.data) (now : Z) (u : Schema.User) : Schema.User :=
  {| Schema.user_id := Schema.user_id u;
     Schema.email := default (Schema.email u) (Update.email d);
     Schema.name := match Update.name d with Some n => Some n | None => Schema.name u end;
     Schema.password := default (Schema.password u) (Update.password d);
     Schema.createdAt := Schema.createdAt u;
     Schema.updatedAt := now |}.

(** [prisma.user.update({ where, data })]: the record must exist (P2025
    otherwise) and the email stay unique (P2002 otherwise). *)
Definition user_update (wh : UserWhereUnique) (d : Update.data) : M Schema.User :=
  round_trip (
    us <- get users ;;
    found <- get (lookup wh) ;;
    match found with
    | None => throw (PrismaError "P2025")
    | Some u =>
        now <- get clock ;;
        let u' := patch d now u in
        if existsb (fun r => String.eqb (Schema.email r) (Schema.email u')
                             && negb (String.eqb (Schema.user_id r) (Schema.user_id u))) us
        then throw (PrismaError "P2002")
        else
          modify (set_users
                    (map (fun r => if String.eqb (Schema.user_id r) (Schema.user_id u)
                                   then u' else r) us)) ;;;
          ret u'
    end).

(** The next round-trip reaches the store. *)
Definition reachable (w : World) : Prop := outage w (queries w) = false.

End Prisma.

(** ** The packages as effectful calls *)
Module Lib.
Section WithPlatform.
Context `{Platform}.

(** [sign(payload, secret, { expiresIn })] *)
Definition sign (c : Jwt.Claims) (secret : string) (expiresIn : Jwt.timespan) : M string :=
  now <- get clock ;;
  ret (jwt_sign c secret expiresIn now).

(** [verify(token, secret)]: returns the payload or throws. *)
Definition verify (token secret : string) : M Jwt.Payload :=
  now <- get clock ;;
  match jwt_verify token secret now with
  | Jwt.Decoded p => ret p
  | Jwt.Fails e => throw (JwtError e)
  end.

(** [bcrypt.genSalt(rounds)] *)
Definition genSalt (rounds : nat) : M string :=
  n <- get entropy ;;
  modify (set_entropy (S n)) ;;;
  ret (bcrypt_genSalt rounds n).

(** [bcrypt.hash(password, salt)] *)
Definition hash (password salt : string) : M string :=
  ret (bcrypt_hash password salt).

(** [bcrypt.compare(password, hash)] *)
Definition compare (password digest : string) : M bool :=
  ret (bcrypt_compare password digest).

End WithPlatform.
End Lib.

(** ** The authentication module (token, password and session utilities,
       route-handler and server-action entry points, form handlers) *)
Module Auth.

(** [type User]; the [id] of a value built from a row is [undefined]
    (see [user_of_row]). *)
Record User := { id : option string; name : option string; email : string }.

Record AuthResult := {
  success : bool;
  message : option string;
  user : option User
}.

(** The object returned by [getSession]. *)
Module SessionInfo.
Record t := { user : option Jwt.Payload; isAuthenticated : bool }.
End SessionInfo.

(** The object returned by the form handlers. *)
Module Form.
Record Result := { error : option string; success : option bool }.
End Form.

(** [\s] on code units below 256. *)
Definition is_space (c : ascii) : bool :=
  let n := nat_of_ascii c in
  existsb (Nat.eqb n) [9; 10; 11; 12; 13; 32; 160]%nat.

(** The class [\s@] negated by [[^\s@]]. *)
Definition space_or_at (c : ascii) : bool := is_space c || Ascii.eqb c "@".

(** [/^[^\s@]+@[^\s@]+\.[^\s@]+$/] *)
Definition emailRegex : Regex.regex :=
  Regex.Cat (Regex.Plus (Regex.NoneOf space_or_at))
    (Regex.Cat (Regex.Chr "@")
       (Regex.Cat (Regex.Plus (Regex.NoneOf space_or_at))
          (Regex.Cat (Regex.Chr ".")
             (Regex.Plus (Regex.NoneOf space_or_at))))).

Definition isValidEmail (email : string) : bool := Regex.test emailRegex email.

Section WithPlatform.
Context `{Platform}.

Definition JWT_SECRET : string := Js.or_else env_JWT_SECRET "your-secret-key".
Definition COOKIE_NAME : string := "session_token".
Definition COOKIE_OPTIONS : Next.CookieOptions :=
  {| Next.httpOnly := true;
     Next.secure := match env_NODE_ENV with
                    | Some v => String.eqb v "production"
                    | None => false
                    end;
     Next.sameSite := "lax";
     Next.path := "/";
     Next.maxAge := 30 * 24 * 60 * 60 |}.

Definition generateToken (u : User) : M string :=
  Lib.sign {| Jwt.id := id u; Jwt.email := email u; Jwt.name := name u |}
           JWT_SECRET (Jwt.Days 30).

Definition verifyToken (token : string) : M (option Jwt.Payload) :=
  try_catch
    (p <- Lib.verify token JWT_SECRET ;; ret (Some p))
    (fun _ => ret None).

Definition hashPassword (password : string) : M string :=
  salt <- Lib.genSalt 10 ;;
  Lib.hash password salt.

Definition comparePassword (password digest : string) : M bool :=
  Lib.compare password digest.

Definition getSession : M SessionInfo.t :=
  token <- CookieStore.get_value COOKIE_NAME ;;
  if Js.falsy token
  then ret {| SessionInfo.user := None; SessionInfo.isAuthenticated := false |}
  else
    u <- verifyToken (default "" token) ;;
    ret {| SessionInfo.user := u;
           SessionInfo.isAuthenticated := bool_decide (is_Some u) |}.

Definition getCurrentUser : M (option Jwt.Payload) :=
  s <- getSession ;;
  ret (SessionInfo.user s).

(** [{ id: user.id, email: user.email, name: user.name }]: the row's key is
    [user_id], so [user.id] is [undefined]. *)
Definition user_of_row (u : Schema.User) : User :=
  {| id := Schema.id u; email := Schema.email u; name := Schema.name u |}.

(** [{ success: false, message }] *)
Definition failure (msg : string) : AuthResult :=
  {| success := false; message := Some msg; user := None |}.

(** [{ success: true, user: { id, email, name } }] *)
Definition granted (u : Schema.User) : AuthResult :=
  {| success := true; message := None; user := Some (user_of_row u) |}.

(** Login action for route handlers. *)
Definition loginHandler (email password : string) : M (Next.Response AuthResult) :=
  try_catch
    (found <- Prisma.user_findUnique (Prisma.WhereEmail email) ;;
     match found with
     | None => ret (Next.json (failure "Invalid credentials") 401)
     | Some u =>
         isMatch <- comparePassword password (Schema.password u) ;;
         if negb isMatch
         then ret (Next.json (failure "Invalid credentials") 401)
         else
           token <- generateToken (user_of_row u) ;;
           let response := Next.json (granted u) 200 in
           ret (Next.response_cookies_set response COOKIE_NAME token COOKIE_OPTIONS)
     end)
    (fun _ =>
       console_log "Login error:" ;;;
       ret (Next.json (failure "An error occurred during login") 500)).

(** Register action for route handlers. *)
Definition registerHandler (name email password : string)
  : M (Next.Response AuthResult) :=
  try_catch
    (console_log "registerHandler called with:" ;;;
     existingUser <- Prisma.user_findUnique (Prisma.WhereEmail email) ;;
     match existingUser with
     | Some _ => ret (Next.json (failure "User already exists") 409)
     | None =>
         hashedPassword <- hashPassword password ;;
         newUser <- Prisma.user_create
                      {| Prisma.Create.name := Some name;
                         Prisma.Create.email := email;
                         Prisma.Create.password := hashedPassword |} ;;
         token <- generateToken (user_of_row newUser) ;;
         let response := Next.json (granted newUser) 200 in
         ret (Next.response_cookies_set response COOKIE_NAME token COOKIE_OPTIONS)
     end)
    (fun _ =>
       console_log "Registration error details in handler:" ;;;
       ret (Next.json (failure "An error occurred during registration") 500)).

(** Logout action for route handlers. *)
Definition logoutHandler : Next.Response AuthResult :=
  let response :=
    Next.json {| success := true; message := None; user := None |} 200 in
  Next.response_cookies_delete response COOKIE_NAME.

(** Login action for server components. *)
Definition login (email password : string) : M AuthResult :=
  try_catch
    (found <- Prisma.user_findUnique (Prisma.WhereEmail email) ;;
     match found with
     | None => ret (failure "Invalid credentials")
     | Some u =>
         isMatch <- comparePassword password (Schema.password u) ;;
         if negb isMatch
         then ret (failure "Invalid credentials")
         else
           token <- generateToken (user_of_row u) ;;
           CookieStore.set COOKIE_NAME token COOKIE_OPTIONS ;;;
           ret (granted u)
     end)
    (fun _ =>
       console_log "Login error:" ;;;
       ret (failure "An error occurred during login")).

(** Register action for server components. *)
Definition register (name email password : string) : M AuthResult :=
  try_catch
    (existingUser <- Prisma.user_findUnique (Prisma.WhereEmail email) ;;
     match existingUser with
     | Some _ => ret (failure "User already exists")
     | None =>
         hashedPassword <- hashPassword password ;;
         newUser <- Prisma.user_create
                      {| Prisma.Create.name := Some name;
                         Prisma.Create.email := email;
                         Prisma.Create.password := hashedPassword |} ;;
         token <- generateToken (user_of_row newUser) ;;
         CookieStore.set COOKIE_NAME token COOKIE_OPTIONS ;;;
         ret (granted newUser)
     end)
    (fun _ =>
       console_log "Registration error:" ;;;
       ret (failure "An error occurred during registration")).

(** Logout action for server components. *)
Definition logout : M unit := CookieStore.delete COOKIE_NAME.

Definition form_error (msg : string) : Form.Result :=
  {| Form.error := Some msg; Form.success := None |}.

Definition form_success : Form.Result :=
  {| Form.error := None; Form.success := Some true |}.

(** Form handler of the registration page; [formData.get(k)] is [formData !! k]. *)
Definition handleRegister (formData : gmap string string) : M Form.Result :=
  let name := formData !! "name" in
  let email := formData !! "email" in
  let password := formData !! "password" in
  let confirmPassword := formData !! "confirmPassword" in
  if Js.falsy name || Js.falsy email || Js.falsy password || Js.falsy confirmPassword
  then ret (form_error "All fields are required")
  else
    let name := default "" name in
    let email := default "" email in
    let password := default "" password in
    let confirmPassword := default "" confirmPassword in
    if negb (isValidEmail email)
    then ret (form_error "Please enter a valid email address")
    else if negb (String.eqb password confirmPassword)
    then ret (form_error "Passwords do not match")
    else if (Z.of_nat (String.length password) <? 8)
    then ret (form_error "Password must be at least 8 characters long")
    else
      try_catch
        (result <- register name email password ;;
         if negb (success result)
         then ret (form_error (Js.or_else (message result) "Failed to register"))
         else ret form_success)
        (fun _ =>
           console_log "Registration error:" ;;;
           ret (form_error "An unexpected error occurred")).

(** [requireAuth]: the current user, or a redirect to the login page. *)
Definition requireAuth : C Jwt.Payload :=
  cbind (lift getCurrentUser) (fun u =>
    match u with
    | None => redirect "/login"
    | Some p => cret p
    end).

(** Form handler of the login page. *)
Definition handleLogin (formData : gmap string string) : M Form.Result :=
  let email := formData !! "email" in
  let password := formData !! "password" in
  if Js.falsy email || Js.falsy password
  then ret (form_error "Email and password are required")
  else
    let email := default "" email in
    let password := default "" password in
    if negb (isValidEmail email)
    then ret (form_error "Please enter a valid email address")
    else
      try_catch
        (result <- login email password ;;
         if negb (success result)
         then ret (form_error (Js.or_else (message result) "Invalid credentials"))
         else ret form_success)
        (fun _ =>
           console_log "Login error:" ;;;
           ret (form_error "An unexpected error occurred")).

End WithPlatform.
End Auth.

(** ** The session module: a second copy of token verification and session
       lookup, with logging and a guard around the cookie access.  Its [User]
       type names the key [user_id]; the value returned is whatever payload
       the token carries. *)
Module Session.
Section WithPlatform.
Context `{Platform}.

Definition JWT_SECRET : string := Js.or_else env_JWT_SECRET "your-secret-key".
Definition COOKIE_NAME : string := "session_token".

Definition verifyToken (token : string) : M (option Jwt.Payload) :=
  try_catch
    (p <- Lib.verify token JWT_SECRET ;; ret (Some p))
    (fun _ =>
       console_log "Token verification error:" ;;;
       ret None).

Definition getSession : M Auth.SessionInfo.t :=
  try_catch
    (token <- CookieStore.get_value COOKIE_NAME ;;
     console_log "Session check:" ;;;
     if Js.falsy token
     then ret {| Auth.SessionInfo.user := None;
                 Auth.SessionInfo.isAuthenticated := false |}
     else
       u <- verifyToken (default "" token) ;;
       (match u with
        | None => console_log "Invalid token received"
        | Some _ => console_log "User authenticated:"
        end) ;;;
       ret {| Auth.SessionInfo.user := u;
              Auth.SessionInfo.isAuthenticated := bool_decide (is_Some u) |})
    (fun _ =>
       console_log "Session retrieval error:" ;;;
       ret {| Auth.SessionInfo.user := None;
              Auth.SessionInfo.isAuthenticated := false |}).

Definition getCurrentUser : M (option Jwt.Payload) :=
  s <- getSession ;;
  ret (Auth.SessionInfo.user s).

(** [requireAuth]: the current user, or a redirect to the login page. *)
Definition requireAuth : C Jwt.Payload :=
  cbind (lift getCurrentUser) (fun u =>
    match u with
    | None => redirect "/login"
    | Some p => cret p
    end).

Definition isAuthenticated : M bool :=
  s <- getSession ;;
  ret (Auth.SessionInfo.isAuthenticated s).

(** [getAdminSession]: whether the [admin-session] cookie holds a value. *)
Definition getAdminSession : M bool :=
  try_catch
    (adminSession <- CookieStore.get_value "admin-session" ;;
     console_log "Admin session check:" ;;;
     ret (negb (Js.falsy adminSession)))
    (fun _ =>
       console_log "Admin session retrieval error:" ;;;
       ret false).

Definition requireAdmin : C bool :=
  cbind (lift getAdminSession) (fun isAdmin =>
    if negb isAdmin
    then cabort (JsError "Unauthorized - Admin access required")
    else cret true).

End WithPlatform.
End Session.

(** ** The user repository helpers

    The helpers name the row key [id] in [where] and [select]; the store
    client is taken to resolve that name to the key of the row. *)
Module Db.

(** [select: { id, name, email }] *)
Record UserPublic := { id : string; name : option string; email : string }.

Definition select_public (u : Schema.User) : UserPublic :=
  {| id := Schema.user_id u; name := Schema.name u; email := Schema.email u |}.

(** [select: { id, name, email, password }] *)
Module WithPassword.
Record t := {
  id : string;
  name : option string;
  email : string;
  password : string
}.
End WithPassword.

Definition select_auth (u : Schema.User) : WithPassword.t :=
  {| WithPassword.id := Schema.user_id u;
     WithPassword.name := Schema.name u;
     WithPassword.email := Schema.email u;
     WithPassword.password := Schema.password u |}.

(** The argument of [createUser]. *)
Module NewUser.
Record t := { name : string; email : string; password : string }.
End NewUser.

Definition getUserById (id : string) : M (option UserPublic) :=
  try_catch
    (u <- Prisma.user_findUnique (Prisma.WhereId id) ;;
     ret (select_public <$> u))
    (fun _ =>
       console_log "Error fetching user by ID:" ;;;
       ret None).

Definition getUserByEmail (email : string) : M (option WithPassword.t) :=
  try_catch
    (u <- Prisma.user_findUnique (Prisma.WhereEmail email) ;;
     ret (select_auth <$> u))
    (fun _ =>
       console_log "Error fetching user by email:" ;;;
       ret None).

Definition createUser `{Platform} (data : NewUser.t) : M UserPublic :=
  try_catch
    (u <- Prisma.user_create
            {| Prisma.Create.name := Some (NewUser.name data);
               Prisma.Create.email := NewUser.email data;
               Prisma.Create.password := NewUser.password data |} ;;
     ret (select_public u))
    (fun error =>
       console_log "Error creating user:" ;;;
       throw error).

Definition updateUser (id : string) (data : Prisma.Update.data) : M (option UserPublic) :=
  try_catch
    (u <- Prisma.user_update (Prisma.WhereId id) data ;;
     ret (Some (select_public u)))
    (fun _ =>
       console_log "Error updating user:" ;;;
       ret None).

End Db.

(** ** A reference platform

    A small executable stand-in for the packages, used to run the code on
    concrete inputs: tokens are a length-free encoding of the payload followed
    by a keyed checksum.  It is not a secure implementation. *)
Module Reference.

Fixpoint enc_str (s : string) : string :=
  match s with
  | EmptyString => "."
  | String c r => String "+" (String c (enc_str r))
  end.

Fixpoint dec_str (s : string) : option (string * string) :=
  match s with
  | EmptyString => None
  | String c r =>
      if Ascii.eqb c "." then Some ("", r)
      else if Ascii.eqb c "+" then
        match r with
        | EmptyString => None
        | String d r' =>
            match dec_str r' with
            | Some (x, rest) => Some (String d x, rest)
            | None => None
            end
        end
      else None
  end.

Definition enc_opt (o : option string) : string :=
  match o with
  | None => "N"
  | Some s => String "S" (enc_str s)
  end.

Definition dec_opt (s : string) : option (option string * string) :=
  match s with
  | EmptyString => None
  | String c r =>
      if Ascii.eqb c "N" then Some (None, r)
      else if Ascii.eqb c "S" then
        match dec_str r with
        | Some (x, rest) => Some (Some x, rest)
        | None => None
        end
      else None
  end.

Fixpoint enc_pos (p : positive) : string :=
  match p with
  | xH => "."
  | xO q => String "0" (enc_pos q)
  | xI q => String "1" (enc_pos q)
  end.

Fixpoint dec_pos (s : string) : option (positive * string) :=
  match s with
  | EmptyString => None
  | String c r =>
      if Ascii.eqb c "." then Some (xH, r)
      else
        match dec_pos r with
        | Some (q, rest) =>
            if Ascii.eqb c "0" then Some (xO q, rest)
            else if Ascii.eqb c "1" then Some (xI q, rest)
            else None
        | None => None
        end
  end.

Definition enc_Z (z : Z) : string :=
  match z with
  | Z0 => "z"
  | Zpos p => String "p" (enc_pos p)
  | Zneg p => String "n" (enc_pos p)
  end.

Definition dec_Z (s : string) : option (Z * string) :=
  match s with
  | EmptyString => None
  | String c r =>
      if Ascii.eqb c "z" then Some (0, r)
      else
        match dec_pos r with
        | Some (q, rest) =>
            if Ascii.eqb c "p" then Some (Zpos q, rest)
            else if Ascii.eqb c "n" then Some (Zneg q, rest)
            else None
        | None => None
        end
  end.

(** The token without its tag, and with a given tag appended. *)
Definition enc_payload (p : Jwt.Payload) (tag : string) : string :=
  let c := Jwt.claims p in
  enc_opt (Jwt.id c) +:+ enc_str (Jwt.email c) +:+ enc_opt (Jwt.name c)
    +:+ enc_Z (Jwt.iat p) +:+ enc_Z (Jwt.exp p) +:+ tag.

Definition dec_payload (s : string) : option (Jwt.Payload * string) :=
  '(i, s1) ← dec_opt s;
  '(e, s2) ← dec_str s1;
  '(n, s3) ← dec_opt s2;
  '(t0, s4) ← dec_Z s3;
  '(t1, tag) ← dec_Z s4;
  Some ({| Jwt.claims := {| Jwt.id := i; Jwt.email := e; Jwt.name := n |};
           Jwt.iat := t0; Jwt.exp := t1 |}, tag).

(** A keyed checksum standing in for the signature. *)
Definition checksum (s : string) : Z :=
  fold_left (fun acc c => (acc * 31 + Z.of_nat (nat_of_ascii c)) mod 4294967296)
            (list_ascii_of_string s) 7.

Definition tag_of (secret : string) (p : Jwt.Payload) : string :=
  enc_Z (checksum (secret +:+ enc_payload p "")).

Definition sign (c : Jwt.Claims) (secret : string) (span : Jwt.timespan) (now : Z) : string :=
  let p := {| Jwt.claims := c; Jwt.iat := now; Jwt.exp := now + Jwt.seconds_of span |} in
  enc_payload p (tag_of secret p).

Definition verify (token secret : string) (now : Z) : Jwt.outcome :=
  match dec_payload token with
  | None => Jwt.Fails (Jwt.JsonWebTokenError "jwt malformed")
  | Some (p, tag) =>
      if negb (String.eqb tag (tag_of secret p))
      then Jwt.Fails (Jwt.JsonWebTokenError "invalid signature")
      else if Jwt.exp p <=? now
      then Jwt.Fails Jwt.TokenExpiredError
      else Jwt.Decoded p
  end.

Definition genSalt (rounds entropy : nat) : string :=
  String (ascii_of_nat (65 + (rounds + entropy) mod 26)) "".

Definition hash (password salt : string) : string := salt +:+ password.

Definition compare (password digest : string) : bool :=
  match digest with
  | EmptyString => false
  | String _ rest => String.eqb rest password
  end.

Definition uuid (entropy : nat) : string :=
  String "u" (enc_pos (Pos.of_succ_nat entropy)).

Definition platform : Platform :=
  Build_Platform None (Some "production") sign verify genSalt hash compare uuid.

(** An empty store with no cookie, at time 1000. *)
Definition world0 : World :=
  {| users := []; queries := 0; outage := fun _ => false; jar := ∅;
     clock := 1000; entropy := 0; console := [] |}.

(** The store of [world0] unreachable. *)
Definition world_down : World :=
  {| users := []; queries := 0; outage := fun _ => true; jar := ∅;
     clock := 1000; entropy := 0; console := [] |}.

(** A user, the world after that user registered through the server
    action, and the row this created. *)
Definition ada : Auth.User :=
  {| Auth.id := Some "u0."; Auth.name := Some "Ada"; Auth.email := "ada@example.com" |}.

Definition ada_row : Schema.User :=
  {| Schema.user_id := "u0.";
     Schema.email := "ada@example.com";
     Schema.name := Some "Ada";
     Schema.password := "Klongenough1";
     Schema.createdAt := 1000;
     Schema.updatedAt := 1000 |}.

Definition world_ada : World :=
  snd (Auth.register (H:=platform) "Ada" "ada@example.com" "longenough1" world0).

(** Registration forms with a password of length 7 and of length 8. *)
Definition form (password confirmation : string) : gmap string string :=
  list_to_map [("name", "Ada"); ("email", "ada@example.com");
               ("password", password); ("confirmPassword", confirmation)].

Definition form7 : gmap string string := form "seven77" "seven77".
Definition form8 : gmap string string := form "eight888" "eight888".

End Reference.

(** ** The notions the properties are stated with *)
Module Spec.

(** A non-empty run of characters that are neither whitespace nor [@]. *)
Definition plain (s : string) : Prop :=
  s <> "" /\ Forall (fun c => Auth.space_or_at c = false) (list_ascii_of_string s).

(** The shape [local@domain.tld]. *)
Definition email_shape (e : string) : Prop :=
  exists l d t, e = l +:+ "@" +:+ d +:+ "." +:+ t /\ plain l /\ plain d /\ plain t.

(** All fields present and non-empty, email of the right shape, password
    equal to its confirmation and at least 8 long. *)
Definition valid_form (formData : gmap string string) (n e p : string) : Prop :=
  formData !! "name" = Some n /\ formData !! "email" = Some e /\
  formData !! "password" = Some p /\ formData !! "confirmPassword" = Some p /\
  n <> "" /\ e <> "" /\ p <> "" /\
  email_shape e /\ (8 <= String.length p)%nat.

(** The four messages of the validation step. *)
Definition validation_message (m : string) : Prop :=
  m = "All fields are required" \/ m = "Please enter a valid email address" \/
  m = "Passwords do not match" \/ m = "Password must be at least 8 characters long".

(** The identity a session carries: the payload of the token held by the
    session cookie when that token verifies, nothing otherwise. *)
Definition session_identity `{Platform} (w : World) : option Jwt.Payload :=
  match jar w !! "session_token" with
  | None => None
  | Some c =>
      match jwt_verify (Next.value c) Auth.JWT_SECRET (clock w) with
      | Jwt.Decoded p => Some p
      | Jwt.Fails _ => None
      end
  end.

(** The row a registration creates: fresh id, the given name and email,
    the salted digest of the password, timestamps of the current time. *)
Definition new_user `{Platform} (name email password : string) (w : World)
  : Schema.User :=
  {| Schema.user_id := uuid (S (entropy w));
     Schema.email := email;
     Schema.name := Some name;
     Schema.password := bcrypt_hash password (bcrypt_genSalt 10 (entropy w));
     Schema.createdAt := clock w;
     Schema.updatedAt := clock w |}.

(** The session cookie for a user: a token for that user issued at time
    [t], with the fixed cookie attributes. *)
Definition session_cookie `{Platform} (u : Schema.User) (t : Z) : Next.Cookie :=
  {| Next.value :=
       jwt_sign {| Jwt.id := Schema.id u;
                   Jwt.email := Schema.email u;
                   Jwt.name := Schema.name u |}
                Auth.JWT_SECRET (Jwt.Days 30) t;
     Next.options := Auth.COOKIE_OPTIONS |}.

(** What the form handler returns once validation has passed: the outcome
    of [register] turned into a form result. *)
Definition after_validation `{Platform} (n e p : string) (w : World)
  : result Auth.Form.Result * World :=
  match Auth.register n e p w with
  | (Ok r, w') =>
      (Ok (if Auth.success r
           then Auth.form_success
           else Auth.form_error (Js.or_else (Auth.message r) "Failed to register")),
       w')
  | (Throw _, w') =>
      (Ok (Auth.form_error "An unexpected error occurred"),
       set_console (console w' ++ ["Registration error:"]) w')
  end.

(** An operation propagates store failures when a failing round-trip makes
    it throw. *)
Definition propagates_store_failure {A} (op : M A) : Prop :=
  forall w, outage w (queries w) = true -> exists e w', op w = (Throw e, w').

End Spec.

(** ** Invariants of the User table *)
Module Inv.

(** No two rows share an email. *)
Definition unique_emails (w : World) : Prop := NoDup (map Schema.email (users w)).

(** No two rows share an id. *)
Definition unique_ids (w : World) : Prop := NoDup (map Schema.user_id (users w)).

(** The number of occurrences of a character in a string. *)
Definition count_char (c : ascii) (s : string) : nat :=
  List.length (List.filter (Ascii.eqb c) (list_ascii_of_string s)).

(** The table after the row with the id of [u] has been replaced by [u']. *)
Definition replaced (u u' : Schema.User) (us : list Schema.User) : list Schema.User :=
  map (fun r => if String.eqb (Schema.user_id r) (Schema.user_id u) then u' else r) us.

End Inv.

(** ** Further inputs on the reference platform *)
Module Fixtures.

(** A second user, registered after Ada, and the world with both. *)
Definition bob_row : Schema.User :=
  Spec.new_user (H:=Reference.platform) "Bob" "bob@example.com" "bobspassword"
                Reference.world_ada.

Definition world_two : World :=
  snd (Auth.register (H:=Reference.platform) "Bob" "bob@example.com" "bobspassword"
                     Reference.world_ada).

(** A login form. *)
Definition login_form (email password : string) : gmap string string :=
  list_to_map [("email", email); ("password", password)].

(** Updates: a new display name; the email of another user. *)
Definition rename : Prisma.Update.data :=
  {| Prisma.Update.name := Some "Ada L.";
     Prisma.Update.email := None;
     Prisma.Update.password := None |}.

Definition take_email : Prisma.Update.data :=
  {| Prisma.Update.name := None;
     Prisma.Update.email := Some "ada@example.com";
     Prisma.Update.password := None |}.

End Fixtures.

(** * Properties *)

(** ** The matcher agrees with the words of the expression *)
Module RegexFacts.
Import Regex.

Lemma cat_inv r1 r2 s :
  matches (Cat r1 r2) s ->
  exists s1 s2, s = s1 ++ s2 /\ matches r1 s1 /\ matches r2 s2.
Proof. inversion 1; subst; eauto. Qed.

Lemma alt_inv r1 r2 s : matches (Alt r1 r2) s -> matches r1 s \/ matches r2 s.
Proof. inversion 1; subst; auto. Qed.

Lemma nullable_spec r : nullable r = true <-> matches r [].
Proof.
  induction r as [| | c | f | r1 IH1 r2 IH2 | r1 IH1 r2 IH2 | r IH]; simpl.
  - split; [discriminate | inversion 1].
  - split; [constructor | reflexivity].
  - split; [discriminate | inversion 1].
  - split; [discriminate | inversion 1].
  - rewrite orb_true_iff, IH1, IH2. split.
    + intros [H|H]; [apply MAltL | apply MAltR]; exact H.
    + apply alt_inv.
  - rewrite andb_true_iff, IH1, IH2. split.
    + intros [H1 H2]. apply (MCat r1 r2 [] [] H1 H2).
    + intros H. apply cat_inv in H as (s1 & s2 & E & M1 & M2).
      symmetry in E. apply app_eq_nil in E as [-> ->]. auto.
  - split; [constructor | reflexivity].
Qed.

Lemma star_cons_inv r a s :
  matches (Star r) (a :: s) ->
  exists s1 s2, s = s1 ++ s2 /\ matches r (a :: s1) /\ matches (Star r) s2.
Proof.
  intros H. remember (Star r) as r' eqn:Er. remember (a :: s) as w eqn:Ew.
  revert a s Ew. induction H; intros a s' Ew; try discriminate.
  injection Er as ->.
  destruct s1 as [|b s1]; simpl in Ew.
  - apply IHmatches2; auto.
  - injection Ew as Eb Es. subst. exists s1, s2. auto.
Qed.

Lemma cat_cons r1 r2 a s1 s2 :
  matches r1 (a :: s1) -> matches r2 s2 -> matches (Cat r1 r2) (a :: s1 ++ s2).
Proof. intros H1 H2. apply (MCat r1 r2 (a :: s1) s2 H1 H2). Qed.

Lemma deriv_spec r : forall a s, matches (deriv a r) s <-> matches r (a :: s).
Proof.
  induction r as [| | c | f | r1 IH1 r2 IH2 | r1 IH1 r2 IH2 | r IH];
    intros a s; simpl.
  - split; inversion 1.
  - split; inversion 1.
  - destruct (Ascii.eqb_spec a c) as [->|Hne]; split; intros H; inversion H; subst.
    + constructor.
    + constructor.
    + congruence.
  - destruct (f a) eqn:E; split; intros H; inversion H; subst.
    + congruence.
    + constructor. assumption.
    + constructor.
  - split; intros H; apply alt_inv in H as [H|H].
    + apply MAltL, IH1, H.
    + apply MAltR, IH2, H.
    + apply MAltL, IH1, H.
    + apply MAltR, IH2, H.
  - destruct (nullable r1) eqn:N.
    + split; intros H.
      * apply alt_inv in H as [H|H].
        -- apply cat_inv in H as (s1 & s2 & -> & M1 & M2).
           apply cat_cons; [apply IH1|]; assumption.
        -- apply (MCat r1 r2 [] (a :: s)); [apply nullable_spec, N | apply IH2, H].
      * apply cat_inv in H as (s1 & s2 & E & M1 & M2).
        destruct s1 as [|b s1]; simpl in E.
        -- subst s2. apply MAltR, IH2, M2.
        -- injection E as Eb Es; subst. apply MAltL. constructor; [apply IH1|]; assumption.
    + split; intros H.
      * apply cat_inv in H as (s1 & s2 & -> & M1 & M2).
        apply cat_cons; [apply IH1|]; assumption.
      * apply cat_inv in H as (s1 & s2 & E & M1 & M2).
        destruct s1 as [|b s1]; simpl in E.
        -- apply nullable_spec in M1. congruence.
        -- injection E as Eb Es; subst. constructor; [apply IH1|]; assumption.
  - split; intros H.
    + apply cat_inv in H as (s1 & s2 & -> & M1 & M2).
      apply (MStarS r (a :: s1) s2); [apply IH|]; assumption.
    + apply star_cons_inv in H as (s1 & s2 & -> & M1 & M2).
      constructor; [apply IH|]; assumption.
Qed.

Lemma matchb_spec s : forall r, matchb r s = true <-> matches r s.
Proof.
  induction s as [|a s IH]; intros r; simpl.
  - apply nullable_spec.
  - rewrite IH. apply deriv_spec.
Qed.

(** The words of [[^...]+]: non-empty, every character outside the class. *)
Lemma star_noneof f s :
  matches (Star (NoneOf f)) s <-> Forall (fun c => f c = false) s.
Proof.
  split.
  - intros H. remember (Star (NoneOf f)) as r eqn:Er.
    induction H; try discriminate; [constructor|].
    injection Er as ->. inversion H; subst. constructor; auto.
  - induction 1 as [|c s Hc _ IH]; [constructor|].
    change (c :: s) with ([c] ++ s). apply MStarS; [constructor|]; assumption.
Qed.

Lemma plus_noneof f s :
  matches (Plus (NoneOf f)) s <-> s <> [] /\ Forall (fun c => f c = false) s.
Proof.
  unfold Plus. split.
  - intros H. apply cat_inv in H as (s1 & s2 & -> & M1 & M2).
    inversion M1; subst. split; [discriminate|].
    constructor; [assumption | apply star_noneof, M2].
  - intros [Hne Hall]. destruct s as [|c s]; [congruence|].
    inversion Hall; subst.
    apply (cat_cons _ _ c [] s); [constructor; assumption | apply star_noneof; assumption].
Qed.

End RegexFacts.

(** ** The email check accepts exactly the shape [local@domain.tld] *)
Module EmailFacts.
Import Regex RegexFacts.

Lemma list_of_append (a b : string) :
  list_ascii_of_string (a +:+ b) = list_ascii_of_string a ++ list_ascii_of_string b.
Proof. induction a as [|c a IH]; simpl; [reflexivity | now rewrite IH]. Qed.

Lemma string_of_list_app (a b : list ascii) :
  string_of_list_ascii (a ++ b) = string_of_list_ascii a +:+ string_of_list_ascii b.
Proof. induction a as [|c a IH]; simpl; [reflexivity | now rewrite IH]. Qed.

Lemma list_of_nonempty (a : string) : a <> "" <-> list_ascii_of_string a <> [].
Proof. destruct a; simpl; split; intros H; congruence. Qed.

Lemma chr_inv c s : matches (Chr c) s -> s = [c].
Proof. inversion 1; reflexivity. Qed.

Definition plain_list (l : list ascii) : Prop :=
  l <> [] /\ Forall (fun c => Auth.space_or_at c = false) l.

Lemma plain_of_list l : plain_list l -> Spec.plain (string_of_list_ascii l).
Proof.
  intros [Hne Hall]. split.
  - apply list_of_nonempty. now rewrite list_ascii_of_string_of_list_ascii.
  - now rewrite list_ascii_of_string_of_list_ascii.
Qed.

Lemma plain_to_list s : Spec.plain s -> plain_list (list_ascii_of_string s).
Proof. intros [Hne Hall]. split; [now apply list_of_nonempty | exact Hall]. Qed.

Lemma emailRegex_words s :
  matches Auth.emailRegex s <->
  exists l d t, s = l ++ "@"%char :: d ++ "."%char :: t /\
                plain_list l /\ plain_list d /\ plain_list t.
Proof.
  unfold Auth.emailRegex. split.
  - intros H.
    apply cat_inv in H as (l & s1 & -> & Hl & H).
    apply cat_inv in H as (a & s2 & -> & Ha & H).
    apply cat_inv in H as (d & s3 & -> & Hd & H).
    apply cat_inv in H as (b & t & -> & Hb & Ht).
    apply chr_inv in Ha as ->. apply chr_inv in Hb as ->.
    exists l, d, t. unfold plain_list.
    split; [reflexivity|].
    split; [|split]; apply (proj1 (plus_noneof _ _)); assumption.
  - intros (l & d & t & -> & Hl & Hd & Ht).
    apply MCat; [apply (proj2 (plus_noneof _ _)), Hl|].
    apply (MCat _ _ ["@"%char]); [constructor|].
    apply MCat; [apply (proj2 (plus_noneof _ _)), Hd|].
    apply (MCat _ _ ["."%char]); [constructor|].
    apply (proj2 (plus_noneof _ _)), Ht.
Qed.

Lemma isValidEmail_spec (e : string) :
  Auth.isValidEmail e = true <-> Spec.email_shape e.
Proof.
  unfold Auth.isValidEmail, Regex.test. rewrite matchb_spec, emailRegex_words. split.
  - intros (l & d & t & E & Hl & Hd & Ht).
    exists (string_of_list_ascii l), (string_of_list_ascii d), (string_of_list_ascii t).
    split; [|repeat split; now apply plain_of_list].
    rewrite <- (string_of_list_ascii_of_string e), E.
    rewrite string_of_list_app. simpl. rewrite string_of_list_app. reflexivity.
  - intros (l & d & t & -> & Hl & Hd & Ht).
    exists (list_ascii_of_string l), (list_ascii_of_string d), (list_ascii_of_string t).
    rewrite !list_of_append. simpl.
    repeat split; now apply plain_to_list.
Qed.

End EmailFacts.

(** ** The reference platform satisfies the laws assumed of the token package *)
Module ReferenceFacts.
Import Reference.

Lemma dec_enc_str s rest : dec_str (enc_str s +:+ rest) = Some (s, rest).
Proof. induction s as [|c s IH]; simpl; [reflexivity | now rewrite IH]. Qed.

Lemma dec_enc_opt o rest : dec_opt (enc_opt o +:+ rest) = Some (o, rest).
Proof. destruct o as [s|]; simpl; [now rewrite dec_enc_str | reflexivity]. Qed.

Lemma dec_enc_pos p rest : dec_pos (enc_pos p +:+ rest) = Some (p, rest).
Proof. induction p as [q IH|q IH|]; simpl; try rewrite IH; reflexivity. Qed.

Lemma dec_enc_Z z rest : dec_Z (enc_Z z +:+ rest) = Some (z, rest).
Proof. destruct z; simpl; try rewrite dec_enc_pos; reflexivity. Qed.

Lemma dec_enc_payload p tag : dec_payload (enc_payload p tag) = Some (p, tag).
Proof.
  destruct p as [[i e n] t0 t1]. unfold dec_payload, enc_payload. simpl.
  rewrite dec_enc_opt. simpl. rewrite dec_enc_str. simpl.
  rewrite dec_enc_opt. simpl. rewrite dec_enc_Z. simpl.
  rewrite dec_enc_Z. reflexivity.
Qed.

Lemma sign_verify : @jwt_sign_verify_law platform.
Proof.
  intros c secret span t0 t _ Ht. simpl. unfold verify, sign.
  rewrite dec_enc_payload, String.eqb_refl. simpl.
  destruct (Z.leb_spec (t0 + Jwt.seconds_of span) t) as [Hle|_]; [lia | reflexivity].
Qed.

Lemma verify_empty : @jwt_verify_empty_law platform.
Proof. intros secret t p. simpl. discriminate. Qed.

Lemma expiry : @jwt_expiry_law platform.
Proof.
  intros c secret span t0 t _ Ht. simpl. unfold verify, sign.
  rewrite dec_enc_payload, String.eqb_refl. simpl.
  destruct (Z.leb_spec (t0 + Jwt.seconds_of span) t) as [_|Hlt]; [reflexivity | lia].
Qed.

Lemma hash_compare : @bcrypt_hash_compare_law platform.
Proof. intros password rounds n. simpl. apply String.eqb_refl. Qed.

End ReferenceFacts.

(** ** Token utilities *)
Section TokenProperties.
Context `{Platform}.

Lemma or_else_nonempty (v : option string) (d : string) :
  d <> "" -> Js.or_else v d <> "".
Proof.
  intros Hd. destruct v as [s|]; simpl; [|exact Hd].
  destruct (String.eqb_spec s ""); assumption.
Qed.

(** The secret is never empty: an unset or empty variable falls back to the
    built-in default. *)
Lemma JWT_SECRET_nonempty : Auth.JWT_SECRET <> "".
Proof. apply or_else_nonempty. discriminate. Qed.

Lemma generateToken_run (u : Auth.User) (w : World) :
  Auth.generateToken u w =
  (Ok (jwt_sign {| Jwt.id := Auth.id u; Jwt.email := Auth.email u; Jwt.name := Auth.name u |}
                Auth.JWT_SECRET (Jwt.Days 30) (clock w)), w).
Proof. reflexivity. Qed.

Lemma verifyToken_run (token : string) (w : World) :
  Auth.verifyToken token w =
  (Ok match jwt_verify token Auth.JWT_SECRET (clock w) with
      | Jwt.Decoded p => Some p
      | Jwt.Fails _ => None
      end, w).
Proof.
  unfold Auth.verifyToken, try_catch, bind, Lib.verify, bind, get. simpl.
  destruct (jwt_verify token Auth.JWT_SECRET (clock w)); reflexivity.
Qed.

Lemma session_verifyToken_run (token : string) (w : World) :
  Session.verifyToken token w =
  match jwt_verify token Auth.JWT_SECRET (clock w) with
  | Jwt.Decoded p => (Ok (Some p), w)
  | Jwt.Fails _ =>
      (Ok None, set_console (console w ++ ["Token verification error:"]) w)
  end.
Proof.
  unfold Session.verifyToken, try_catch, bind, Lib.verify, bind, get. simpl.
  change Session.JWT_SECRET with Auth.JWT_SECRET.
  destruct (jwt_verify token Auth.JWT_SECRET (clock w)); reflexivity.
Qed.

(** C1. Token round trip: a token produced by [generateToken] for a user,
    verified by [verifyToken] under the same secret at any time before its
    expiry (30 days after issuance), yields claims whose id, email and name
    are those of the user. *)
Theorem token_roundtrip :
  jwt_sign_verify_law ->
  forall (u : Auth.User) (w w' : World),
    clock w' < clock w + 30 * 24 * 60 * 60 ->
    exists token p,
      Auth.generateToken u w = (Ok token, w) /\
      Auth.verifyToken token w' = (Ok (Some p), w') /\
      Jwt.id (Jwt.claims p) = Auth.id u /\
      Jwt.email (Jwt.claims p) = Auth.email u /\
      Jwt.name (Jwt.claims p) = Auth.name u.
Proof.
  intros Law u w w' Hfresh.
  eexists _, _. split; [apply generateToken_run|].
  rewrite verifyToken_run, Law; [| apply JWT_SECRET_nonempty | exact Hfresh].
  repeat split.
Qed.

(** C7. Verification failure mode: for every input string [verifyToken]
    returns a value and never raises; whenever the token package rejects
    the token (signature not matching the secret, malformed token, expiry
    passed, each reported by [verify] as an error) the value is null.  This
    holds for both copies of [verifyToken]. *)
Theorem verifyToken_rejects_to_null (token : string) :
  never_raises (Auth.verifyToken token) /\
  never_raises (Session.verifyToken token) /\
  forall (w : World) (e : Jwt.error),
    jwt_verify token Auth.JWT_SECRET (clock w) = Jwt.Fails e ->
    Auth.verifyToken token w = (Ok None, w) /\
    Session.verifyToken token w =
    (Ok None, set_console (console w ++ ["Token verification error:"]) w).
Proof.
  split; [|split].
  - intros w. rewrite verifyToken_run. eauto.
  - intros w. rewrite session_verifyToken_run.
    destruct (jwt_verify token Auth.JWT_SECRET (clock w)); eauto.
  - intros w e He. rewrite verifyToken_run, session_verifyToken_run, He. split; reflexivity.
Qed.

End TokenProperties.

(** ** Session lookup and logout *)
Section SessionProperties.
Context `{Platform}.

Lemma getCurrentUser_run :
  jwt_verify_empty_law ->
  forall w, Auth.getCurrentUser w = (Ok (Spec.session_identity w), w).
Proof.
  intros Law w.
  unfold Auth.getCurrentUser, Auth.getSession, bind, CookieStore.get_value, get,
    Spec.session_identity, Auth.COOKIE_NAME.
  destruct (jar w !! "session_token") as [[v o]|]; simpl; [|reflexivity].
  destruct (String.eqb_spec v "") as [->|Hv]; simpl.
  - specialize (Law Auth.JWT_SECRET (clock w)).
    destruct (jwt_verify "" Auth.JWT_SECRET (clock w)) as [p|e]; [|reflexivity].
    now destruct (Law p).
  - rewrite verifyToken_run. reflexivity.
Qed.

Lemma session_getCurrentUser_run :
  jwt_verify_empty_law ->
  forall w, exists lines,
    Session.getCurrentUser w =
    (Ok (Spec.session_identity w), set_console (console w ++ lines) w).
Proof.
  intros Law w.
  unfold Session.getCurrentUser, Session.getSession, try_catch, bind,
    CookieStore.get_value, get, console_log, modify, Spec.session_identity,
    Session.COOKIE_NAME.
  destruct (jar w !! "session_token") as [[v o]|] eqn:Ej; simpl;
    [|exists ["Session check:"]; reflexivity].
  destruct (String.eqb_spec v "") as [->|Hv]; simpl.
  - exists ["Session check:"].
    specialize (Law Auth.JWT_SECRET (clock w)).
    destruct (jwt_verify "" Auth.JWT_SECRET (clock w)) as [p|e]; [|reflexivity].
    now destruct (Law p).
  - rewrite session_verifyToken_run. simpl.
    destruct (jwt_verify v Auth.JWT_SECRET (clock w)) as [p|e]; simpl.
    + exists ["Session check:"; "User authenticated:"].
      unfold set_console; simpl. now rewrite <- ?app_assoc.
    + exists ["Session check:"; "Token verification error:"; "Invalid token received"].
      unfold set_console; simpl. now rewrite <- ?app_assoc.
Qed.

(** C6. [getCurrentUser] is total: in every session state (cookie absent,
    cookie holding a token that does not verify, cookie holding a token
    that verifies) it returns the decoded identity when the token verifies
    and null otherwise, and never raises.  This holds for both copies; the
    session module's copy only adds console lines. *)
Theorem getCurrentUser_total :
  jwt_verify_empty_law ->
  forall w : World,
    Auth.getCurrentUser w = (Ok (Spec.session_identity w), w) /\
    exists lines,
      Session.getCurrentUser w =
      (Ok (Spec.session_identity w), set_console (console w ++ lines) w).
Proof.
  intros Law w. split.
  - now apply getCurrentUser_run.
  - now apply session_getCurrentUser_run.
Qed.

Lemma set_jar_same (w : World) : set_jar (jar w) w = w.
Proof. now destruct w. Qed.

(** C8. Logout is idempotent: from every session state, [logout] succeeds,
    leaves the session cookie absent, and a second [logout] changes nothing
    more; with no session cookie it changes nothing at all.  The same holds
    for the cookies of a browser that receives the response of
    [logoutHandler] once or twice. *)
Theorem logout_idempotent (w : World) :
  exists w1,
    Auth.logout w = (Ok tt, w1) /\
    Auth.logout w1 = (Ok tt, w1) /\
    jar w1 !! Auth.COOKIE_NAME = None /\
    (jar w !! Auth.COOKIE_NAME = None -> w1 = w) /\
    let j1 := Next.deliver Auth.logoutHandler (jar w) in
    Next.deliver Auth.logoutHandler j1 = j1 /\
    j1 !! Auth.COOKIE_NAME = None /\
    (jar w !! Auth.COOKIE_NAME = None -> j1 = jar w).
Proof.
  eexists. split; [reflexivity|].
  unfold Auth.logout, CookieStore.delete, modify, Next.deliver. simpl.
  repeat split.
  - unfold set_jar. simpl. f_equal. f_equal.
    apply delete_id, lookup_delete_eq.
  - apply lookup_delete_eq.
  - intros Hnone. rewrite delete_id by exact Hnone. apply set_jar_same.
  - apply delete_id, lookup_delete_eq.
  - apply lookup_delete_eq.
  - intros Hnone. now apply delete_id.
Qed.

End SessionProperties.

(** ** Login and registration *)
Section AuthProperties.
Context `{Platform}.

Lemma find_none_existsb {A} (f : A -> bool) (l : list A) :
  List.find f l = None -> existsb f l = false.
Proof.
  induction l as [|a l IH]; simpl; [reflexivity|].
  destruct (f a); [discriminate | exact IH].
Qed.

Lemma findUnique_reachable (wh : Prisma.UserWhereUnique) (w : World) :
  Prisma.reachable w ->
  Prisma.user_findUnique wh w =
  (Ok (Prisma.lookup wh w), set_queries (S (queries w)) w).
Proof.
  unfold Prisma.reachable, Prisma.user_findUnique, Prisma.round_trip.
  intros ->. reflexivity.
Qed.

Lemma findUnique_unreachable (wh : Prisma.UserWhereUnique) (w : World) :
  outage w (queries w) = true ->
  Prisma.user_findUnique wh w =
  (Throw (PrismaError "P1001"), set_queries (S (queries w)) w).
Proof.
  unfold Prisma.user_findUnique, Prisma.round_trip. intros ->. reflexivity.
Qed.

(** The world after a successful registration through the server action. *)
Lemma register_run (name email password : string) (w : World) :
  outage w (queries w) = false ->
  outage w (S (queries w)) = false ->
  Prisma.lookup (Prisma.WhereEmail email) w = None ->
  let u := Spec.new_user name email password w in
  Auth.register name email password w =
  (Ok (Auth.granted u),
   mkWorld (users w ++ [u]) (S (S (queries w))) (outage w)
           (<[Auth.COOKIE_NAME := Spec.session_cookie u (clock w)]> (jar w))
           (clock w) (S (S (entropy w))) (console w)).
Proof.
  intros H1 H2 Hfree. simpl.
  unfold Auth.register, try_catch, bind.
  rewrite findUnique_reachable by exact H1. rewrite Hfree.
  unfold Auth.hashPassword, Lib.genSalt, Lib.hash, bind, get, modify, ret,
    Prisma.user_create, Prisma.round_trip, bind, get, modify, ret.
  simpl. rewrite H2. simpl.
  unfold Prisma.lookup in Hfree. rewrite (find_none_existsb _ _ Hfree).
  reflexivity.
Qed.

(** The response and world after a successful registration through the
    route handler. *)
Lemma registerHandler_run (name email password : string) (w : World) :
  outage w (queries w) = false ->
  outage w (S (queries w)) = false ->
  Prisma.lookup (Prisma.WhereEmail email) w = None ->
  let u := Spec.new_user name email password w in
  Auth.registerHandler name email password w =
  (Ok {| Next.status := 200%nat;
         Next.body := Auth.granted u;
         Next.cookies :=
           [Next.SetCookie Auth.COOKIE_NAME (Spec.session_cookie u (clock w))] |},
   mkWorld (users w ++ [u]) (S (S (queries w))) (outage w) (jar w)
           (clock w) (S (S (entropy w)))
           (console w ++ ["registerHandler called with:"])).
Proof.
  intros H1 H2 Hfree. simpl.
  unfold Auth.registerHandler, try_catch, bind, console_log, modify.
  rewrite findUnique_reachable by exact H1. simpl.
  change (Prisma.lookup (Prisma.WhereEmail email) _)
    with (Prisma.lookup (Prisma.WhereEmail email) w).
  rewrite Hfree.
  unfold Auth.hashPassword, Lib.genSalt, Lib.hash, bind, get, modify, ret,
    Prisma.user_create, Prisma.round_trip, bind, get, modify, ret.
  simpl. rewrite H2. simpl.
  unfold Prisma.lookup in Hfree. rewrite (find_none_existsb _ _ Hfree).
  reflexivity.
Qed.

(** C2. Registration with an email that already belongs to a user: both
    the server action and the route handler leave the User table as it was,
    and, the store answering, return the conflict outcome
    ['User already exists'] (the handler with status 409). *)
Theorem register_conflict (name email password : string) (w : World)
    (existing : Schema.User) :
  Prisma.lookup (Prisma.WhereEmail email) w = Some existing ->
  (users (snd (Auth.register name email password w)) = users w /\
   users (snd (Auth.registerHandler name email password w)) = users w) /\
  (Prisma.reachable w ->
   fst (Auth.register name email password w)
     = Ok (Auth.failure "User already exists") /\
   fst (Auth.registerHandler name email password w)
     = Ok (Next.json (Auth.failure "User already exists") 409)).
Proof.
  intros Hfound.
  unfold Auth.register, Auth.registerHandler, try_catch, bind, console_log, modify.
  simpl.
  destruct (outage w (queries w)) eqn:Eo.
  - rewrite !findUnique_unreachable by exact Eo. simpl.
    split; [split; reflexivity |].
    intros R. unfold Prisma.reachable in R. congruence.
  - rewrite !findUnique_reachable by exact Eo. simpl.
    change (Prisma.lookup (Prisma.WhereEmail email) _)
      with (Prisma.lookup (Prisma.WhereEmail email) w).
    rewrite Hfound. simpl. repeat split.
Qed.

(** C3. Credential failures are indistinguishable: a login with an email
    no user has and a login with an existing email whose password fails
    verification against the stored digest return the same result, with the
    message ['Invalid credentials'], through the server action and through
    the route handler (status 401 in both cases). *)
Theorem login_failures_indistinguishable
    (email1 password1 email2 password2 : string) (w1 w2 : World)
    (stored : Schema.User) :
  Prisma.reachable w1 ->
  Prisma.reachable w2 ->
  Prisma.lookup (Prisma.WhereEmail email1) w1 = None ->
  Prisma.lookup (Prisma.WhereEmail email2) w2 = Some stored ->
  bcrypt_compare password2 (Schema.password stored) = false ->
  fst (Auth.login email1 password1 w1) = fst (Auth.login email2 password2 w2) /\
  fst (Auth.login email2 password2 w2) = Ok (Auth.failure "Invalid credentials") /\
  fst (Auth.loginHandler email1 password1 w1)
    = fst (Auth.loginHandler email2 password2 w2) /\
  fst (Auth.loginHandler email2 password2 w2)
    = Ok (Next.json (Auth.failure "Invalid credentials") 401).
Proof.
  intros R1 R2 Hnone Hsome Hbad.
  unfold Auth.login, Auth.loginHandler, try_catch, bind.
  rewrite !findUnique_reachable by assumption.
  rewrite Hnone, Hsome.
  unfold Auth.comparePassword, Lib.compare, ret. rewrite Hbad. simpl.
  repeat split.
Qed.

(** C9, as the code behaves.  For every name, email and password whose email
    is not yet used, the store answering, [register] succeeds, the new row
    (with a key of its own) is in the table and the session cookie holds a
    token signed for it, and [getCurrentUser] (either copy) in a later
    request of that session, within the token's 30 days, returns the same
    email and name.  The id does not make the round trip: [register] reads
    [newUser.id], which a row does not have, so the user it returns, the
    token and the identity [getCurrentUser] returns carry no id, and the
    row's key is not among the claims. *)
Theorem register_then_getCurrentUser :
  jwt_sign_verify_law ->
  jwt_verify_empty_law ->
  forall (name email password : string) (w : World),
    outage w (queries w) = false ->
    outage w (S (queries w)) = false ->
    Prisma.lookup (Prisma.WhereEmail email) w = None ->
    exists (u : Schema.User) (w1 : World),
      Auth.register name email password w = (Ok (Auth.granted u), w1) /\
      Schema.email u = email /\ Schema.name u = Some name /\
      Schema.user_id u = uuid (S (entropy w)) /\
      In u (users w1) /\
      Auth.user (Auth.granted u)
        = Some {| Auth.id := None; Auth.name := Some name; Auth.email := email |} /\
      jar w1 !! Auth.COOKIE_NAME = Some (Spec.session_cookie u (clock w)) /\
      forall d : Z,
        d < 30 * 24 * 60 * 60 ->
        exists p : Jwt.Payload,
          Auth.getCurrentUser (advance d w1) = (Ok (Some p), advance d w1) /\
          fst (Session.getCurrentUser (advance d w1)) = Ok (Some p) /\
          Jwt.id (Jwt.claims p) = None /\
          Jwt.id (Jwt.claims p) <> Some (Schema.user_id u) /\
          Jwt.email (Jwt.claims p) = email /\
          Jwt.name (Jwt.claims p) = Some name.
Proof.
  intros Lsv Lempty name email password w H1 H2 Hfree.
  eexists _, _. split; [apply register_run; assumption|].
  split; [reflexivity|]. split; [reflexivity|]. split; [reflexivity|].
  split; [simpl; apply in_or_app; right; left; reflexivity|].
  split; [reflexivity|].
  split; [simpl; apply lookup_insert_eq|].
  intros d Hd.
  match goal with
  | |- context [Auth.getCurrentUser ?w1] =>
      assert (Spec.session_identity w1 =
              Some {| Jwt.claims :=
                        {| Jwt.id := None;
                           Jwt.email := email;
                           Jwt.name := Some name |};
                      Jwt.iat := clock w;
                      Jwt.exp := clock w + Jwt.seconds_of (Jwt.Days 30) |}) as Hid
  end.
  { unfold Spec.session_identity, advance. simpl.
    change "session_token" with Auth.COOKIE_NAME.
    rewrite lookup_insert_eq. simpl.
    rewrite Lsv; [reflexivity | apply JWT_SECRET_nonempty | simpl; lia]. }
  eexists. split; [|split].
  - rewrite getCurrentUser_run by exact Lempty. rewrite Hid. reflexivity.
  - match goal with
    | |- context [Session.getCurrentUser ?w1] =>
        destruct (session_getCurrentUser_run Lempty w1) as (lines & ->)
    end.
    simpl. rewrite Hid. reflexivity.
  - simpl. repeat split. discriminate.
Qed.

(** C10. The route-handler registration applies no validation: for every
    name, email and password (empty name, malformed email, short or empty
    password included) whose email is unused, the store answering, it hashes
    the password with a fresh salt, appends the user to the table and
    returns status 200 with success, the user, and the session cookie set. *)
Theorem registerHandler_applies_no_validation
    (name email password : string) (w : World) :
  outage w (queries w) = false ->
  outage w (S (queries w)) = false ->
  Prisma.lookup (Prisma.WhereEmail email) w = None ->
  exists (u : Schema.User) (w1 : World),
    Auth.registerHandler name email password w =
    (Ok {| Next.status := 200%nat;
           Next.body := {| Auth.success := true;
                           Auth.message := None;
                           Auth.user := Some (Auth.user_of_row u) |};
           Next.cookies :=
             [Next.SetCookie Auth.COOKIE_NAME (Spec.session_cookie u (clock w))] |},
     w1) /\
    users w1 = users w ++ [u] /\
    Schema.name u = Some name /\
    Schema.email u = email /\
    Schema.password u = bcrypt_hash password (bcrypt_genSalt 10 (entropy w)).
Proof.
  intros H1 H2 Hfree.
  eexists _, _. split; [apply registerHandler_run; assumption|].
  repeat split.
Qed.

End AuthProperties.

(** ** Form-based registration *)
Section FormProperties.
Context `{Platform}.

Lemma falsy_false (v : option string) :
  Js.falsy v = false <-> exists s, v = Some s /\ s <> "".
Proof.
  destruct v as [s|]; simpl.
  - destruct (String.eqb_spec s ""); split.
    + discriminate.
    + intros (s' & E & Hs). injection E as <-. contradiction.
    + eauto.
    + reflexivity.
  - split; [discriminate | intros (s & E & _); discriminate E].
Qed.

Lemma falsy_true_not_valid (formData : gmap string string) (k : string) (n e p : string) :
  Js.falsy (formData !! k) = true ->
  k = "name" \/ k = "email" \/ k = "password" \/ k = "confirmPassword" ->
  ~ Spec.valid_form formData n e p.
Proof.
  intros Hf Hk (Hn & He & Hp & Hc & Nn & Ne & Np & _).
  assert (Js.falsy (formData !! k) = false) as Hff; [|congruence].
  apply falsy_false.
  destruct Hk as [-> | [-> | [-> | ->]]]; eauto.
Qed.

(** Every submission is either rejected by the validation step, leaving
    the world untouched, or is well-formed and handed to [register]. *)
Lemma handleRegister_cases (formData : gmap string string) (w : World) :
  (exists m, Spec.validation_message m /\
             (forall n e p, ~ Spec.valid_form formData n e p) /\
             Auth.handleRegister formData w = (Ok (Auth.form_error m), w))
  \/
  (exists n e p, Spec.valid_form formData n e p /\
                 Auth.handleRegister formData w = Spec.after_validation n e p w).
Proof.
  unfold Auth.handleRegister.
  destruct (Js.falsy (formData !! "name")) eqn:Fn; simpl.
  { left. eexists. split; [left; reflexivity|]. split; [|reflexivity].
    intros n e p. eapply falsy_true_not_valid; eauto. }
  destruct (Js.falsy (formData !! "email")) eqn:Fe; simpl.
  { left. eexists. split; [left; reflexivity|]. split; [|reflexivity].
    intros n e p. eapply falsy_true_not_valid; eauto. }
  destruct (Js.falsy (formData !! "password")) eqn:Fp; simpl.
  { left. eexists. split; [left; reflexivity|]. split; [|reflexivity].
    intros n e p. eapply falsy_true_not_valid; eauto. }
  destruct (Js.falsy (formData !! "confirmPassword")) eqn:Fc; simpl.
  { left. eexists. split; [left; reflexivity|]. split; [|reflexivity].
    intros n e p. eapply falsy_true_not_valid; eauto 6. }
  apply falsy_false in Fn as (n & En & Nn), Fe as (e & Ee & Ne),
      Fp as (p & Ep & Np), Fc as (c & Ec & Nc).
  rewrite En, Ee, Ep, Ec. simpl.
  destruct (Auth.isValidEmail e) eqn:Ve; simpl.
  2:{ left. eexists. split; [right; left; reflexivity|]. split; [|reflexivity].
      intros n' e' p' (_ & He' & _ & _ & _ & _ & _ & Sh & _).
      assert (e' = e) as -> by congruence.
      apply EmailFacts.isValidEmail_spec in Sh. congruence. }
  destruct (String.eqb_spec p c) as [<-|Hpc]; simpl.
  2:{ left. eexists. split; [right; right; left; reflexivity|]. split; [|reflexivity].
      intros n' e' p' (_ & _ & Hp' & Hc' & _). congruence. }
  destruct (Z.ltb_spec (Z.of_nat (String.length p)) 8) as [Hlt|Hge].
  { left. eexists. split; [right; right; right; reflexivity|]. split; [|reflexivity].
    intros n' e' p' (_ & _ & Hp' & _ & _ & _ & _ & _ & Hlen).
    assert (p' = p) as -> by congruence. lia. }
  right. exists n, e, p. split.
  - repeat split; auto; [now apply EmailFacts.isValidEmail_spec | lia].
  - unfold Spec.after_validation, try_catch, bind, console_log, modify, ret.
    destruct (Auth.register n e p w) as [[r|ex] w']; [|reflexivity].
    destruct (Auth.success r); reflexivity.
Qed.

Lemma valid_form_unique (formData : gmap string string) (n e p n' e' p' : string) :
  Spec.valid_form formData n e p -> Spec.valid_form formData n' e' p' ->
  n' = n /\ e' = e /\ p' = p.
Proof.
  intros (Hn & He & Hp & _) (Hn' & He' & Hp' & _). repeat split; congruence.
Qed.

(** C5. Form-based registration validates before any store access: a
    submission that is not well-formed (a field missing or empty, an email
    not of the shape local@domain.tld, a password different from its
    confirmation, or a password shorter than 8) is answered with a
    validation message and the world, the count of store round-trips
    included, is untouched; a well-formed one is handed to [register].  In
    particular a password of length 7 is rejected, and one of length 8,
    with the other checks passing, goes on to [register]. *)
Theorem handleRegister_validation (formData : gmap string string) (w : World) :
  ((forall n e p, ~ Spec.valid_form formData n e p) ->
   exists m, Spec.validation_message m /\
             Auth.handleRegister formData w = (Ok (Auth.form_error m), w)) /\
  (forall n e p, Spec.valid_form formData n e p ->
     Auth.handleRegister formData w = Spec.after_validation n e p w) /\
  (forall p, formData !! "password" = Some p -> String.length p = 7%nat ->
     exists m, Spec.validation_message m /\
               Auth.handleRegister formData w = (Ok (Auth.form_error m), w)) /\
  (forall n e p,
     formData !! "name" = Some n -> formData !! "email" = Some e ->
     formData !! "password" = Some p -> formData !! "confirmPassword" = Some p ->
     n <> "" -> Spec.email_shape e -> String.length p = 8%nat ->
     Auth.handleRegister formData w = Spec.after_validation n e p w).
Proof.
  assert (forall n e p, Spec.valid_form formData n e p ->
            Auth.handleRegister formData w = Spec.after_validation n e p w) as Hvalid.
  { intros n e p V.
    destruct (handleRegister_cases formData w)
      as [(m & _ & Hno & _) | (n' & e' & p' & V' & E)].
    - destruct (Hno n e p V).
    - destruct (valid_form_unique _ _ _ _ _ _ _ V V') as (-> & -> & ->). exact E. }
  assert ((forall n e p, ~ Spec.valid_form formData n e p) ->
          exists m, Spec.validation_message m /\
                    Auth.handleRegister formData w = (Ok (Auth.form_error m), w))
    as Hinvalid.
  { intros Hno.
    destruct (handleRegister_cases formData w)
      as [(m & Hm & _ & E) | (n & e & p & V & _)]; [eauto | destruct (Hno n e p V)]. }
  split; [exact Hinvalid|]. split; [exact Hvalid|]. split.
  - intros p Hp Hlen. apply Hinvalid.
    intros n e p' (_ & _ & Hp' & _ & _ & _ & _ & _ & Hlen').
    assert (p' = p) as -> by congruence. lia.
  - intros n e p Hn He Hp Hc Nn Sh Hlen. apply Hvalid.
    repeat split; auto; try lia.
    + destruct Sh as (l & d & t & -> & [Hl _] & _). destruct l; [congruence | discriminate].
    + intros ->. discriminate.
Qed.

End FormProperties.

(** ** The user repository helpers *)
Section RepositoryProperties.
Context `{Platform}.

Lemma update_unreachable (wh : Prisma.UserWhereUnique) (d : Prisma.Update.data)
    (w : World) :
  outage w (queries w) = true ->
  Prisma.user_update wh d w =
  (Throw (PrismaError "P1001"), set_queries (S (queries w)) w).
Proof. unfold Prisma.user_update, Prisma.round_trip. intros ->. reflexivity. Qed.

Lemma create_unreachable (d : Prisma.Create.data) (w : World) :
  outage w (queries w) = true ->
  Prisma.user_create d w =
  (Throw (PrismaError "P1001"), set_queries (S (queries w)) w).
Proof. unfold Prisma.user_create, Prisma.round_trip. intros ->. reflexivity. Qed.

(** C4, as the code has it.  Looking a user up by id or by email, and
    updating a user, return null when the user is not found, and also
    return null, after writing a console line, when the store round-trip
    fails; only creating a user propagates a store failure (an unreachable
    store, a duplicate email) to the caller as an error. *)
Theorem repository_failure_handling :
  (forall id w, Prisma.reachable w -> Prisma.lookup (Prisma.WhereId id) w = None ->
     fst (Db.getUserById id w) = Ok None) /\
  (forall email w, Prisma.reachable w ->
     Prisma.lookup (Prisma.WhereEmail email) w = None ->
     fst (Db.getUserByEmail email w) = Ok None) /\
  (forall id data w, Prisma.reachable w ->
     Prisma.lookup (Prisma.WhereId id) w = None ->
     fst (Db.updateUser id data w) = Ok None /\
     users (snd (Db.updateUser id data w)) = users w) /\
  (forall id w, outage w (queries w) = true ->
     Db.getUserById id w =
     (Ok None, set_console (console w ++ ["Error fetching user by ID:"])
                           (set_queries (S (queries w)) w))) /\
  (forall email w, outage w (queries w) = true ->
     Db.getUserByEmail email w =
     (Ok None, set_console (console w ++ ["Error fetching user by email:"])
                           (set_queries (S (queries w)) w))) /\
  (forall id data w, outage w (queries w) = true ->
     Db.updateUser id data w =
     (Ok None, set_console (console w ++ ["Error updating user:"])
                           (set_queries (S (queries w)) w))) /\
  (forall data, Spec.propagates_store_failure (Db.createUser data)) /\
  (forall data w existing, Prisma.reachable w ->
     Prisma.lookup (Prisma.WhereEmail (Db.NewUser.email data)) w = Some existing ->
     exists w', Db.createUser data w = (Throw (PrismaError "P2002"), w') /\
                users w' = users w).
Proof.
  split; [|split; [|split; [|repeat split]]].
  - intros id w R Hnone. unfold Db.getUserById, try_catch, bind.
    rewrite findUnique_reachable by exact R. now rewrite Hnone.
  - intros email w R Hnone. unfold Db.getUserByEmail, try_catch, bind.
    rewrite findUnique_reachable by exact R. now rewrite Hnone.
  - intros id data w R Hnone.
    unfold Db.updateUser, try_catch, bind, Prisma.user_update, Prisma.round_trip,
      bind, get. rewrite R. simpl.
    change (Prisma.lookup (Prisma.WhereId id) _) with (Prisma.lookup (Prisma.WhereId id) w).
    rewrite Hnone. split; reflexivity.
  - intros id w Hdown. unfold Db.getUserById, try_catch, bind.
    now rewrite findUnique_unreachable by exact Hdown.
  - intros email w Hdown. unfold Db.getUserByEmail, try_catch, bind.
    now rewrite findUnique_unreachable by exact Hdown.
  - intros id data w Hdown. unfold Db.updateUser, try_catch, bind.
    now rewrite update_unreachable by exact Hdown.
  - intros data w Hdown. unfold Db.createUser, try_catch, bind.
    rewrite create_unreachable by exact Hdown. simpl. eauto.
  - intros data w existing R Hsome.
    unfold Db.createUser, try_catch, bind, Prisma.user_create, Prisma.round_trip,
      bind, get. rewrite R. simpl.
    unfold Prisma.lookup in Hsome.
    assert (existsb (Prisma.selects (Prisma.WhereEmail (Db.NewUser.email data)))
                    (users w) = true) as ->.
    { apply existsb_exists. apply find_some in Hsome. eauto. }
    simpl. eauto.
Qed.

End RepositoryProperties.

(** C4 as stated fails: with the store unreachable, the lookups and the
    update return null instead of raising. *)
Lemma repository_swallows_store_failure :
  outage Reference.world_down (queries Reference.world_down) = true /\
  fst (Db.getUserById "u0." Reference.world_down) = Ok None /\
  fst (Db.getUserByEmail "ada@example.com" Reference.world_down) = Ok None /\
  fst (Db.updateUser "u0."
         {| Prisma.Update.name := Some "Ada L.";
            Prisma.Update.email := None;
            Prisma.Update.password := None |} Reference.world_down) = Ok None /\
  ~ (Spec.propagates_store_failure (Db.getUserById "u0.") /\
     Spec.propagates_store_failure (Db.getUserByEmail "ada@example.com") /\
     (forall data, Spec.propagates_store_failure (Db.createUser (H:=Reference.platform) data)) /\
     (forall data, Spec.propagates_store_failure (Db.updateUser "u0." data))).
Proof.
  repeat split.
  intros (P & _).
  destruct (P Reference.world_down eq_refl) as (e & w' & E). discriminate E.
Qed.

(** ** The properties on the reference platform *)
Section Witnesses.
Import Reference.
#[local] Existing Instance platform.

(** The row the registration of Ada created is [ada_row]. *)
Lemma world_ada_users : users world_ada = [ada_row].
Proof. reflexivity. Qed.

(** The scenario of the specification: register, then a login with a wrong
    password and a login with the right one. *)
Example scenario :
  fst (Auth.register "Ada" "ada@example.com" "longenough1" world0)
    = Ok (Auth.granted ada_row) /\
  is_Some (jar world_ada !! "session_token") /\
  fst (Auth.login "ada@example.com" "wrongpass" world_ada)
    = Ok (Auth.failure "Invalid credentials") /\
  fst (Auth.login "ada@example.com" "longenough1" world_ada)
    = Ok (Auth.granted ada_row).
Proof. vm_compute. repeat split. eauto. Qed.

(** The three rejections of a token: malformed, signed with another
    secret, expired. *)
Example rejected_tokens :
  fst (Auth.verifyToken "not-a-token" world0) = Ok None /\
  fst (Auth.verifyToken (sign {| Jwt.id := Some "u0."; Jwt.email := "ada@example.com";
                                 Jwt.name := Some "Ada" |}
                              "another-secret" (Jwt.Days 30) 1000) world0) = Ok None /\
  fst (Auth.getCurrentUser (advance (30 * 24 * 60 * 60) world_ada)) = Ok None.
Proof. vm_compute. repeat split. Qed.

Lemma token_roundtrip_witness :
  exists token p,
    Auth.generateToken ada world0 = (Ok token, world0) /\
    Auth.verifyToken token (advance 86400 world0) = (Ok (Some p), advance 86400 world0) /\
    Jwt.id (Jwt.claims p) = Some "u0." /\
    Jwt.email (Jwt.claims p) = "ada@example.com" /\
    Jwt.name (Jwt.claims p) = Some "Ada".
Proof.
  apply (token_roundtrip ReferenceFacts.sign_verify ada world0 (advance 86400 world0)).
  reflexivity.
Defined.

Lemma verifyToken_rejects_witness :
  Auth.verifyToken "not-a-token" world0 = (Ok None, world0) /\
  Session.verifyToken "not-a-token" world0 =
  (Ok None, set_console (console world0 ++ ["Token verification error:"]) world0).
Proof.
  apply (proj2 (proj2 (verifyToken_rejects_to_null "not-a-token"))
           world0 (Jwt.JsonWebTokenError "jwt malformed")).
  reflexivity.
Defined.

Lemma getCurrentUser_total_witness :
  Auth.getCurrentUser world_ada = (Ok (Spec.session_identity world_ada), world_ada) /\
  exists lines,
    Session.getCurrentUser world_ada =
    (Ok (Spec.session_identity world_ada),
     set_console (console world_ada ++ lines) world_ada).
Proof. apply (getCurrentUser_total ReferenceFacts.verify_empty world_ada). Defined.

Lemma logout_idempotent_witness :
  exists w1,
    Auth.logout world_ada = (Ok tt, w1) /\
    Auth.logout w1 = (Ok tt, w1) /\
    jar w1 !! Auth.COOKIE_NAME = None /\
    (jar world_ada !! Auth.COOKIE_NAME = None -> w1 = world_ada) /\
    let j1 := Next.deliver Auth.logoutHandler (jar world_ada) in
    Next.deliver Auth.logoutHandler j1 = j1 /\
    j1 !! Auth.COOKIE_NAME = None /\
    (jar world_ada !! Auth.COOKIE_NAME = None -> j1 = jar world_ada).
Proof. apply (logout_idempotent world_ada). Defined.

Lemma register_conflict_witness :
  (users (snd (Auth.register "Ada again" "ada@example.com" "otherpass1" world_ada))
     = users world_ada /\
   users (snd (Auth.registerHandler "Ada again" "ada@example.com" "otherpass1" world_ada))
     = users world_ada) /\
  (Prisma.reachable world_ada ->
   fst (Auth.register "Ada again" "ada@example.com" "otherpass1" world_ada)
     = Ok (Auth.failure "User already exists") /\
   fst (Auth.registerHandler "Ada again" "ada@example.com" "otherpass1" world_ada)
     = Ok (Next.json (Auth.failure "User already exists") 409)).
Proof.
  apply (register_conflict "Ada again" "ada@example.com" "otherpass1" world_ada ada_row).
  reflexivity.
Defined.

Lemma login_failures_indistinguishable_witness :
  fst (Auth.login "bob@example.com" "longenough1" world0)
    = fst (Auth.login "ada@example.com" "wrongpass" world_ada) /\
  fst (Auth.login "ada@example.com" "wrongpass" world_ada)
    = Ok (Auth.failure "Invalid credentials") /\
  fst (Auth.loginHandler "bob@example.com" "longenough1" world0)
    = fst (Auth.loginHandler "ada@example.com" "wrongpass" world_ada) /\
  fst (Auth.loginHandler "ada@example.com" "wrongpass" world_ada)
    = Ok (Next.json (Auth.failure "Invalid credentials") 401).
Proof.
  apply (login_failures_indistinguishable
           "bob@example.com" "longenough1" "ada@example.com" "wrongpass"
           world0 world_ada ada_row); reflexivity.
Defined.

Lemma handleRegister_validation_witness :
  (exists m, Spec.validation_message m /\
             Auth.handleRegister form7 world0 = (Ok (Auth.form_error m), world0)) /\
  Auth.handleRegister form8 world0
    = Spec.after_validation "Ada" "ada@example.com" "eight888" world0.
Proof.
  split.
  - apply (proj1 (proj2 (proj2 (handleRegister_validation form7 world0))) "seven77");
      reflexivity.
  - apply (proj2 (proj2 (proj2 (handleRegister_validation form8 world0)))
             "Ada" "ada@example.com" "eight888"); try reflexivity.
    + discriminate.
    + exists "ada", "example", "com". split; [reflexivity|].
      repeat split; try discriminate; vm_compute; repeat constructor.
Defined.

Lemma register_then_getCurrentUser_witness :
  exists (u : Schema.User) (w1 : World),
    Auth.register "Ada" "ada@example.com" "longenough1" world0
      = (Ok (Auth.granted u), w1) /\
    Schema.email u = "ada@example.com" /\ Schema.name u = Some "Ada" /\
    Schema.user_id u = "u0." /\
    In u (users w1) /\
    Auth.user (Auth.granted u)
      = Some {| Auth.id := None; Auth.name := Some "Ada";
                Auth.email := "ada@example.com" |} /\
    jar w1 !! Auth.COOKIE_NAME = Some (Spec.session_cookie u (clock world0)) /\
    forall d : Z,
      d < 30 * 24 * 60 * 60 ->
      exists p : Jwt.Payload,
        Auth.getCurrentUser (advance d w1) = (Ok (Some p), advance d w1) /\
        fst (Session.getCurrentUser (advance d w1)) = Ok (Some p) /\
        Jwt.id (Jwt.claims p) = None /\
        Jwt.id (Jwt.claims p) <> Some (Schema.user_id u) /\
        Jwt.email (Jwt.claims p) = "ada@example.com" /\
        Jwt.name (Jwt.claims p) = Some "Ada".
Proof.
  apply (register_then_getCurrentUser ReferenceFacts.sign_verify ReferenceFacts.verify_empty
           "Ada" "ada@example.com" "longenough1" world0); reflexivity.
Defined.

Lemma registerHandler_applies_no_validation_witness :
  exists (u : Schema.User) (w1 : World),
    Auth.registerHandler "" "not-an-email" "" world0 =
    (Ok {| Next.status := 200%nat;
           Next.body := {| Auth.success := true;
                           Auth.message := None;
                           Auth.user := Some (Auth.user_of_row u) |};
           Next.cookies :=
             [Next.SetCookie Auth.COOKIE_NAME (Spec.session_cookie u (clock world0))] |},
     w1) /\
    users w1 = users world0 ++ [u] /\
    Schema.name u = Some "" /\
    Schema.email u = "not-an-email" /\
    Schema.password u = bcrypt_hash "" (bcrypt_genSalt 10 (entropy world0)).
Proof.
  apply (registerHandler_applies_no_validation "" "not-an-email" "" world0); reflexivity.
Defined.

Lemma repository_failure_handling_witness :
  exists e w',
    Db.createUser {| Db.NewUser.name := "Ada"; Db.NewUser.email := "ada@example.com";
                     Db.NewUser.password := "digest" |} world_down = (Throw e, w').
Proof.
  apply (proj1 (proj2 (proj2 (proj2 (proj2 (proj2 (proj2 repository_failure_handling))))))).
  reflexivity.
Defined.

End Witnesses.


(** ** How the entry points run, case by case *)
Section EntryPointRuns.
Context `{Platform}.

(** [login] in each of its four cases: store failure, unknown email, failed
    comparison, success. *)
Lemma login_run (email password : string) (w : World) :
  Auth.login email password w =
  if outage w (queries w)
  then (Ok (Auth.failure "An error occurred during login"),
        set_console (console w ++ ["Login error:"]) (set_queries (S (queries w)) w))
  else
    match Prisma.lookup (Prisma.WhereEmail email) w with
    | None => (Ok (Auth.failure "Invalid credentials"), set_queries (S (queries w)) w)
    | Some u =>
        if bcrypt_compare password (Schema.password u)
        then (Ok (Auth.granted u),
              set_jar (<[Auth.COOKIE_NAME := Spec.session_cookie u (clock w)]> (jar w))
                      (set_queries (S (queries w)) w))
        else (Ok (Auth.failure "Invalid credentials"), set_queries (S (queries w)) w)
    end.
Proof.
  unfold Auth.login, try_catch, bind.
  destruct (outage w (queries w)) eqn:Eo.
  - rewrite findUnique_unreachable by exact Eo. reflexivity.
  - rewrite findUnique_reachable by exact Eo.
    destruct (Prisma.lookup (Prisma.WhereEmail email) w) as [u|]; [|reflexivity].
    unfold Auth.comparePassword, Lib.compare, ret.
    destruct (bcrypt_compare password (Schema.password u)); reflexivity.
Qed.

Lemma loginHandler_run (email password : string) (w : World) :
  Auth.loginHandler email password w =
  if outage w (queries w)
  then (Ok (Next.json (Auth.failure "An error occurred during login") 500),
        set_console (console w ++ ["Login error:"]) (set_queries (S (queries w)) w))
  else
    match Prisma.lookup (Prisma.WhereEmail email) w with
    | None => (Ok (Next.json (Auth.failure "Invalid credentials") 401),
               set_queries (S (queries w)) w)
    | Some u =>
        if bcrypt_compare password (Schema.password u)
        then (Ok (Next.response_cookies_set (Next.json (Auth.granted u) 200)
                    Auth.COOKIE_NAME
                    (Next.value (Spec.session_cookie u (clock w)))
                    Auth.COOKIE_OPTIONS),
              set_queries (S (queries w)) w)
        else (Ok (Next.json (Auth.failure "Invalid credentials") 401),
              set_queries (S (queries w)) w)
    end.
Proof.
  unfold Auth.loginHandler, try_catch, bind.
  destruct (outage w (queries w)) eqn:Eo.
  - rewrite findUnique_unreachable by exact Eo. reflexivity.
  - rewrite findUnique_reachable by exact Eo.
    destruct (Prisma.lookup (Prisma.WhereEmail email) w) as [u|]; [|reflexivity].
    unfold Auth.comparePassword, Lib.compare, ret.
    destruct (bcrypt_compare password (Schema.password u)); reflexivity.
Qed.

Lemma register_cases (name email password : string) (w : World) :
  Auth.register name email password w =
  if outage w (queries w)
  then (Ok (Auth.failure "An error occurred during registration"),
        set_console (console w ++ ["Registration error:"]) (set_queries (S (queries w)) w))
  else
    match Prisma.lookup (Prisma.WhereEmail email) w with
    | Some _ => (Ok (Auth.failure "User already exists"), set_queries (S (queries w)) w)
    | None =>
        if outage w (S (queries w))
        then (Ok (Auth.failure "An error occurred during registration"),
              mkWorld (users w) (S (S (queries w))) (outage w) (jar w) (clock w)
                      (S (entropy w)) (console w ++ ["Registration error:"]))
        else
          let u := Spec.new_user name email password w in
          (Ok (Auth.granted u),
           mkWorld (users w ++ [u]) (S (S (queries w))) (outage w)
                   (<[Auth.COOKIE_NAME := Spec.session_cookie u (clock w)]> (jar w))
                   (clock w) (S (S (entropy w))) (console w))
    end.
Proof.
  destruct (outage w (queries w)) eqn:E1.
  - unfold Auth.register, try_catch, bind.
    rewrite findUnique_unreachable by exact E1. reflexivity.
  - destruct (Prisma.lookup (Prisma.WhereEmail email) w) as [u|] eqn:El.
    + unfold Auth.register, try_catch, bind.
      rewrite findUnique_reachable by exact E1. rewrite El. reflexivity.
    + destruct (outage w (S (queries w))) eqn:E2.
      * unfold Auth.register, try_catch, bind.
        rewrite findUnique_reachable by exact E1. rewrite El.
        unfold Auth.hashPassword, Lib.genSalt, Lib.hash, bind, get, modify, ret,
          Prisma.user_create, Prisma.round_trip. simpl. rewrite E2. reflexivity.
      * apply register_run; assumption.
Qed.

Lemma registerHandler_cases (name email password : string) (w : World) :
  Auth.registerHandler name email password w =
  let log := console w ++ ["registerHandler called with:"] in
  if outage w (queries w)
  then (Ok (Next.json (Auth.failure "An error occurred during registration") 500),
        mkWorld (users w) (S (queries w)) (outage w) (jar w) (clock w) (entropy w)
                (log ++ ["Registration error details in handler:"]))
  else
    match Prisma.lookup (Prisma.WhereEmail email) w with
    | Some _ => (Ok (Next.json (Auth.failure "User already exists") 409),
                 mkWorld (users w) (S (queries w)) (outage w) (jar w) (clock w)
                         (entropy w) log)
    | None =>
        if outage w (S (queries w))
        then (Ok (Next.json (Auth.failure "An error occurred during registration") 500),
              mkWorld (users w) (S (S (queries w))) (outage w) (jar w) (clock w)
                      (S (entropy w)) (log ++ ["Registration error details in handler:"]))
        else
          let u := Spec.new_user name email password w in
          (Ok (Next.response_cookies_set (Next.json (Auth.granted u) 200)
                 Auth.COOKIE_NAME
                 (Next.value (Spec.session_cookie u (clock w)))
                 Auth.COOKIE_OPTIONS),
           mkWorld (users w ++ [u]) (S (S (queries w))) (outage w) (jar w)
                   (clock w) (S (S (entropy w))) log)
    end.
Proof.
  simpl.
  destruct (outage w (queries w)) eqn:E1.
  - unfold Auth.registerHandler, try_catch, bind, console_log, modify.
    rewrite findUnique_unreachable by exact E1. reflexivity.
  - destruct (Prisma.lookup (Prisma.WhereEmail email) w) as [u|] eqn:El.
    + unfold Auth.registerHandler, try_catch, bind, console_log, modify.
      rewrite findUnique_reachable by exact E1. simpl.
      change (Prisma.lookup (Prisma.WhereEmail email) _)
        with (Prisma.lookup (Prisma.WhereEmail email) w).
      rewrite El. reflexivity.
    + destruct (outage w (S (queries w))) eqn:E2.
      * unfold Auth.registerHandler, try_catch, bind, console_log, modify.
        rewrite findUnique_reachable by exact E1. simpl.
        change (Prisma.lookup (Prisma.WhereEmail email) _)
          with (Prisma.lookup (Prisma.WhereEmail email) w).
        rewrite El.
        unfold Auth.hashPassword, Lib.genSalt, Lib.hash, bind, get, modify, ret,
          Prisma.user_create, Prisma.round_trip. simpl. rewrite E2. reflexivity.
      * apply registerHandler_run; assumption.
Qed.

End EntryPointRuns.

(** ** What the entry points change, and when *)
Section OutcomeProperties.
Context `{Platform}.

Lemma find_app_last {A} (f : A -> bool) (l : list A) (x : A) :
  List.find f l = None -> f x = true -> List.find f (l ++ [x]) = Some x.
Proof.
  intros Hnone Hx. induction l as [|a l IH]; simpl in *.
  - now rewrite Hx.
  - destruct (f a); [discriminate | auto].
Qed.

Lemma lookup_new_user (name email password : string) (w w1 : World) :
  Prisma.lookup (Prisma.WhereEmail email) w = None ->
  users w1 = users w ++ [Spec.new_user name email password w] ->
  Prisma.lookup (Prisma.WhereEmail email) w1 = Some (Spec.new_user name email password w).
Proof.
  intros Hnone Hus. unfold Prisma.lookup in *. rewrite Hus.
  apply find_app_last; [exact Hnone | simpl; apply String.eqb_refl].
Qed.

(** X1. [login] never raises and never changes the User table; it sets the
    session cookie exactly when it reports success, and success means the
    email designates a row whose digest the password compares equal to. *)
Theorem login_cookie_iff_success (email password : string) (w : World) :
  exists (r : Auth.AuthResult) (w' : World),
    Auth.login email password w = (Ok r, w') /\
    users w' = users w /\
    (Auth.success r = true ->
     exists u, Prisma.lookup (Prisma.WhereEmail email) w = Some u /\
               bcrypt_compare password (Schema.password u) = true /\
               Auth.user r = Some (Auth.user_of_row u) /\
               jar w' = <[Auth.COOKIE_NAME := Spec.session_cookie u (clock w)]> (jar w)) /\
    (Auth.success r = false -> jar w' = jar w /\ Auth.user r = None).
Proof.
  rewrite login_run.
  destruct (outage w (queries w)).
  { eexists _, _. split; [reflexivity|]. repeat split; simpl; discriminate. }
  destruct (Prisma.lookup (Prisma.WhereEmail email) w) as [u|].
  2:{ eexists _, _. split; [reflexivity|]. repeat split; simpl; discriminate. }
  destruct (bcrypt_compare password (Schema.password u)) eqn:Ec.
  - eexists _, _. split; [reflexivity|]. split; [reflexivity|]. split.
    + intros _. exists u. repeat split. exact Ec.
    + simpl. discriminate.
  - eexists _, _. split; [reflexivity|]. repeat split; simpl; discriminate.
Qed.

(** X2. [register] never raises and is all-or-nothing: either it reports
    success, exactly one row (the given email and name) has been appended and
    the session cookie holds a token for it, or it reports failure and
    neither the User table nor the cookies have changed. *)
Theorem register_all_or_nothing (name email password : string) (w : World) :
  exists (r : Auth.AuthResult) (w' : World),
    Auth.register name email password w = (Ok r, w') /\
    ((Auth.success r = true /\
      exists u, users w' = users w ++ [u] /\
                Schema.email u = email /\ Schema.name u = Some name /\
                Auth.user r = Some (Auth.user_of_row u) /\
                jar w' = <[Auth.COOKIE_NAME := Spec.session_cookie u (clock w)]> (jar w))
     \/
     (Auth.success r = false /\ users w' = users w /\ jar w' = jar w /\
      Auth.user r = None)).
Proof.
  rewrite register_cases.
  destruct (outage w (queries w)).
  { eexists _, _. split; [reflexivity|]. right. repeat split. }
  destruct (Prisma.lookup (Prisma.WhereEmail email) w).
  { eexists _, _. split; [reflexivity|]. right. repeat split. }
  destruct (outage w (S (queries w))).
  { eexists _, _. split; [reflexivity|]. right. repeat split. }
  eexists _, _. split; [reflexivity|]. left. split; [reflexivity|].
  eexists. repeat split.
Qed.

(** X3. The route handler and the server action of login agree: the body of
    the handler's response is the action's result, the table is the same,
    the handler leaves the request's cookies alone and its response, applied
    by the browser, yields the cookies the action sets; the status is 200
    exactly on success. *)
Theorem loginHandler_agrees_with_login (email password : string) (w : World) :
  exists (r : Auth.AuthResult) (resp : Next.Response Auth.AuthResult) (w1 w2 : World),
    Auth.login email password w = (Ok r, w1) /\
    Auth.loginHandler email password w = (Ok resp, w2) /\
    Next.body resp = r /\
    users w2 = users w1 /\
    jar w2 = jar w /\
    Next.deliver resp (jar w) = jar w1 /\
    (Auth.success r = true <-> Next.status resp = 200%nat).
Proof.
  rewrite login_run, loginHandler_run.
  destruct (outage w (queries w)).
  { eexists _, _, _, _. repeat split; simpl; discriminate. }
  destruct (Prisma.lookup (Prisma.WhereEmail email) w) as [u|].
  2:{ eexists _, _, _, _. repeat split; simpl; discriminate. }
  destruct (bcrypt_compare password (Schema.password u)).
  - eexists _, _, _, _. repeat split.
  - eexists _, _, _, _. repeat split; simpl; discriminate.
Qed.

(** X4. The route handler and the server action of registration agree in the
    same way: same body, same table afterwards, cookies delivered by the
    response equal to the cookies the action sets, status 200 exactly on
    success. *)
Theorem registerHandler_agrees_with_register (name email password : string) (w : World) :
  exists (r : Auth.AuthResult) (resp : Next.Response Auth.AuthResult) (w1 w2 : World),
    Auth.register name email password w = (Ok r, w1) /\
    Auth.registerHandler name email password w = (Ok resp, w2) /\
    Next.body resp = r /\
    users w2 = users w1 /\
    jar w2 = jar w /\
    Next.deliver resp (jar w) = jar w1 /\
    (Auth.success r = true <-> Next.status resp = 200%nat).
Proof.
  rewrite register_cases, registerHandler_cases. simpl.
  destruct (outage w (queries w)).
  { eexists _, _, _, _. repeat split; simpl; discriminate. }
  destruct (Prisma.lookup (Prisma.WhereEmail email) w) as [u|].
  { eexists _, _, _, _. repeat split; simpl; discriminate. }
  destruct (outage w (S (queries w))).
  - eexists _, _, _, _. repeat split; simpl; discriminate.
  - eexists _, _, _, _. repeat split.
Qed.

(** X5. A failing store round-trip is reported with a generic message only:
    login and registration return ['An error occurred during ...'] (status
    500 from the handlers) and leave table and cookies as they were; the
    same holds when registration's second round-trip, the insert, fails. *)
Theorem store_failure_is_generic (name email password : string) (w : World) :
  outage w (queries w) = true \/
  (outage w (queries w) = false /\
   Prisma.lookup (Prisma.WhereEmail email) w = None /\
   outage w (S (queries w)) = true) ->
  (outage w (queries w) = true ->
   fst (Auth.login email password w)
     = Ok (Auth.failure "An error occurred during login") /\
   fst (Auth.loginHandler email password w)
     = Ok (Next.json (Auth.failure "An error occurred during login") 500) /\
   users (snd (Auth.login email password w)) = users w /\
   jar (snd (Auth.login email password w)) = jar w) /\
  fst (Auth.register name email password w)
    = Ok (Auth.failure "An error occurred during registration") /\
  fst (Auth.registerHandler name email password w)
    = Ok (Next.json (Auth.failure "An error occurred during registration") 500) /\
  users (snd (Auth.register name email password w)) = users w /\
  users (snd (Auth.registerHandler name email password w)) = users w /\
  jar (snd (Auth.register name email password w)) = jar w.
Proof.
  rewrite login_run, loginHandler_run, register_cases, registerHandler_cases. simpl.
  intros [E1 | (E1 & El & E2)].
  - rewrite E1. repeat split.
  - rewrite E1, El, E2. split; [discriminate | repeat split].
Qed.

End OutcomeProperties.

(** ** How the operations compose over a session *)
Section LifecycleProperties.
Context `{Platform}.

Lemma identity_after_cookie (u : Schema.User) (w1 : World) (t0 d : Z) :
  jwt_sign_verify_law ->
  jar w1 !! Auth.COOKIE_NAME = Some (Spec.session_cookie u t0) ->
  clock w1 + d < t0 + 30 * 24 * 60 * 60 ->
  Spec.session_identity (advance d w1) =
  Some {| Jwt.claims := {| Jwt.id := None;
                           Jwt.email := Schema.email u;
                           Jwt.name := Schema.name u |};
          Jwt.iat := t0;
          Jwt.exp := t0 + Jwt.seconds_of (Jwt.Days 30) |}.
Proof.
  intros Lsv Hjar Hd. unfold Spec.session_identity, advance. simpl.
  change "session_token" with Auth.COOKIE_NAME. rewrite Hjar. simpl.
  rewrite Lsv; [reflexivity | apply JWT_SECRET_nonempty | simpl; lia].
Qed.

(** X6. Login / session round trip: when the email designates a row whose
    digest the password compares equal to, the store answering, [login]
    succeeds and [getCurrentUser] (either copy) in a later request within 30
    days returns the row's email and name.  The identity carries no id:
    [login] reads [user.id], which a row does not have, so the row's key is
    not among the claims. *)
Theorem login_then_getCurrentUser :
  jwt_sign_verify_law ->
  jwt_verify_empty_law ->
  forall (email password : string) (w : World) (u : Schema.User),
    Prisma.reachable w ->
    Prisma.lookup (Prisma.WhereEmail email) w = Some u ->
    bcrypt_compare password (Schema.password u) = true ->
    exists w1 : World,
      Auth.login email password w = (Ok (Auth.granted u), w1) /\
      forall d : Z,
        d < 30 * 24 * 60 * 60 ->
        exists p : Jwt.Payload,
          Auth.getCurrentUser (advance d w1) = (Ok (Some p), advance d w1) /\
          fst (Session.getCurrentUser (advance d w1)) = Ok (Some p) /\
          Jwt.id (Jwt.claims p) = None /\
          Jwt.email (Jwt.claims p) = Schema.email u /\
          Jwt.name (Jwt.claims p) = Schema.name u.
Proof.
  intros Lsv Lempty email password w u R Hu Hc.
  rewrite login_run. unfold Prisma.reachable in R. rewrite R, Hu, Hc.
  eexists. split; [reflexivity|]. intros d Hd.
  pose proof (identity_after_cookie u
                (set_jar (<[Auth.COOKIE_NAME := Spec.session_cookie u (clock w)]> (jar w))
                         (set_queries (S (queries w)) w))
                (clock w) d Lsv) as Hid.
  simpl in Hid. rewrite lookup_insert_eq in Hid.
  specialize (Hid eq_refl ltac:(lia)).
  eexists. split; [|split].
  - rewrite getCurrentUser_run by exact Lempty. rewrite Hid. reflexivity.
  - match goal with
    | |- context [Session.getCurrentUser ?w1] =>
        destruct (session_getCurrentUser_run Lempty w1) as (lines & ->)
    end.
    simpl. rewrite Hid. reflexivity.
  - repeat split.
Qed.

(** X7. A registered user can log in: after a successful [register], the
    store answering, [login] with the same email and password succeeds with
    the same user, and [login] with a password that does not compare equal to
    the stored digest is refused with ['Invalid credentials']. *)
Theorem register_then_login :
  bcrypt_hash_compare_law ->
  forall (name email password : string) (w : World),
    outage w (queries w) = false ->
    outage w (S (queries w)) = false ->
    outage w (S (S (queries w))) = false ->
    Prisma.lookup (Prisma.WhereEmail email) w = None ->
    exists (u : Schema.User) (w1 : World),
      Auth.register name email password w = (Ok (Auth.granted u), w1) /\
      fst (Auth.login email password w1) = Ok (Auth.granted u) /\
      forall other : string,
        bcrypt_compare other (Schema.password u) = false ->
        fst (Auth.login email other w1) = Ok (Auth.failure "Invalid credentials").
Proof.
  intros Lhc name email password w H1 H2 H3 Hfree.
  eexists _, _. split; [apply register_run; assumption|].
  split.
  - rewrite login_run. simpl. rewrite H3.
    erewrite lookup_new_user; [|exact Hfree|reflexivity].
    simpl. rewrite Lhc. reflexivity.
  - intros other Hbad. rewrite login_run. simpl. rewrite H3.
    erewrite lookup_new_user; [|exact Hfree|reflexivity].
    simpl in *. rewrite Hbad. reflexivity.
Qed.

(** X8. An email can be registered once: after a successful [register], a
    second registration with the same email, through the action or the
    handler and whatever the name and password, is refused with
    ['User already exists'] and adds no row. *)
Theorem register_twice_conflict (name email password name' password' : string)
    (w : World) :
  outage w (queries w) = false ->
  outage w (S (queries w)) = false ->
  outage w (S (S (queries w))) = false ->
  Prisma.lookup (Prisma.WhereEmail email) w = None ->
  exists (u : Schema.User) (w1 : World),
    Auth.register name email password w = (Ok (Auth.granted u), w1) /\
    fst (Auth.register name' email password' w1)
      = Ok (Auth.failure "User already exists") /\
    users (snd (Auth.register name' email password' w1)) = users w1 /\
    fst (Auth.registerHandler name' email password' w1)
      = Ok (Next.json (Auth.failure "User already exists") 409) /\
    users (snd (Auth.registerHandler name' email password' w1)) = users w1.
Proof.
  intros H1 H2 H3 Hfree.
  eexists _, _. split; [apply register_run; assumption|].
  rewrite register_cases, registerHandler_cases. simpl. rewrite H3.
  erewrite lookup_new_user; [|exact Hfree|reflexivity].
  repeat split.
Qed.

(** X9. A token is valid for exactly 30 days: a token issued by
    [generateToken] verifies, with the user's id, at every time before
    issuance plus 30 days and is rejected (null) at every time from then
    on. *)
Theorem token_valid_exactly_30_days :
  jwt_sign_verify_law ->
  jwt_expiry_law ->
  forall (u : Auth.User) (w w' : World),
    exists token,
      Auth.generateToken u w = (Ok token, w) /\
      (clock w' < clock w + 30 * 24 * 60 * 60 ->
       exists p, fst (Auth.verifyToken token w') = Ok (Some p) /\
                 Jwt.id (Jwt.claims p) = Auth.id u /\
                 Jwt.exp p = clock w + 30 * 24 * 60 * 60) /\
      (clock w + 30 * 24 * 60 * 60 <= clock w' ->
       fst (Auth.verifyToken token w') = Ok None /\
       fst (Session.verifyToken token w') = Ok None).
Proof.
  intros Lsv Lexp u w w'. eexists. split; [apply generateToken_run|]. split.
  - intros Hlt. rewrite verifyToken_run, Lsv; [| apply JWT_SECRET_nonempty | exact Hlt].
    eexists. repeat split.
  - intros Hge.
    rewrite verifyToken_run, session_verifyToken_run,
      Lexp; [| apply JWT_SECRET_nonempty | simpl; lia].
    split; reflexivity.
Qed.

End LifecycleProperties.

(** ** Guards and the two copies of the session lookup *)
Section GuardProperties.
Context `{Platform}.

Lemma requireAuth_run (w : World) (r : option Jwt.Payload) (w' : World) :
  Auth.getCurrentUser w = (Ok r, w') ->
  Auth.requireAuth w =
  (match r with
   | Some p => Returns p
   | None => Aborts (NextRedirect "/login")
   end, w').
Proof.
  intros E. unfold Auth.requireAuth, cbind, lift. rewrite E.
  destruct r; reflexivity.
Qed.

Lemma session_requireAuth_run (w : World) (r : option Jwt.Payload) (w' : World) :
  Session.getCurrentUser w = (Ok r, w') ->
  Session.requireAuth w =
  (match r with
   | Some p => Returns p
   | None => Aborts (NextRedirect "/login")
   end, w').
Proof.
  intros E. unfold Session.requireAuth, cbind, lift. rewrite E.
  destruct r; reflexivity.
Qed.

Lemma no_cookie_no_user (w : World) :
  jar w !! "session_token" = None ->
  Auth.getCurrentUser w = (Ok None, w) /\
  fst (Session.getCurrentUser w) = Ok None /\
  fst (Session.isAuthenticated w) = Ok false /\
  fst (Auth.requireAuth w) = Aborts (NextRedirect "/login") /\
  fst (Session.requireAuth w) = Aborts (NextRedirect "/login").
Proof.
  intros Hnone.
  assert (Auth.getCurrentUser w = (Ok None, w)) as Ea.
  { unfold Auth.getCurrentUser, Auth.getSession, bind, CookieStore.get_value, get,
      Auth.COOKIE_NAME. now rewrite Hnone. }
  assert (exists w', Session.getCurrentUser w = (Ok None, w')) as (w' & Es).
  { unfold Session.getCurrentUser, Session.getSession, try_catch, bind,
      CookieStore.get_value, get, console_log, modify, Session.COOKIE_NAME.
    rewrite Hnone. simpl. eauto. }
  split; [exact Ea|]. split; [now rewrite Es|]. split.
  - unfold Session.isAuthenticated, Session.getSession, try_catch, bind,
      CookieStore.get_value, get, console_log, modify, Session.COOKIE_NAME.
    now rewrite Hnone.
  - split.
    + now rewrite (requireAuth_run _ _ _ Ea).
    + now rewrite (session_requireAuth_run _ _ _ Es).
Qed.

(** X10. The two copies of the session lookup agree: for every world the
    session module's [getCurrentUser] returns what the authentication
    module's returns, [isAuthenticated] is true exactly when that is a user,
    and neither changes the table or the cookies. *)
Theorem session_copies_agree (w : World) :
  exists (r : option Jwt.Payload) (w2 : World),
    Auth.getCurrentUser w = (Ok r, w) /\
    Session.getCurrentUser w = (Ok r, w2) /\
    fst (Session.isAuthenticated w)
      = Ok (match r with Some _ => true | None => false end) /\
    users w2 = users w /\ jar w2 = jar w.
Proof.
  unfold Session.isAuthenticated, Auth.getCurrentUser, Auth.getSession,
    Session.getCurrentUser, Session.getSession, try_catch, bind,
    CookieStore.get_value, get, console_log, modify, Auth.COOKIE_NAME,
    Session.COOKIE_NAME.
  destruct (jar w !! "session_token") as [[v o]|]; simpl.
  2:{ eexists _, _. repeat split. }
  destruct (String.eqb v ""); simpl.
  { eexists _, _. repeat split. }
  rewrite verifyToken_run, session_verifyToken_run. simpl.
  destruct (jwt_verify v Auth.JWT_SECRET (clock w)); simpl;
    eexists _, _; repeat split.
Qed.

(** X11. [requireAuth] (either copy) returns the decoded identity when the
    session cookie holds a token that verifies, and otherwise transfers
    control to ['/login']; it never returns without an identity and never
    aborts in another way. *)
Theorem requireAuth_guard :
  jwt_verify_empty_law ->
  forall w : World,
    Auth.requireAuth w =
    (match Spec.session_identity w with
     | Some p => Returns p
     | None => Aborts (NextRedirect "/login")
     end, w) /\
    fst (Session.requireAuth w) =
    match Spec.session_identity w with
    | Some p => Returns p
    | None => Aborts (NextRedirect "/login")
    end.
Proof.
  intros Law w. split.
  - apply requireAuth_run, getCurrentUser_run, Law.
  - destruct (session_getCurrentUser_run Law w) as (lines & E).
    now rewrite (session_requireAuth_run _ _ _ E).
Qed.

(** X12. Logout ends the session, whatever it was: after [logout], or after
    the browser applied the response of [logoutHandler], [getCurrentUser]
    returns null, [isAuthenticated] is false and [requireAuth] redirects to
    ['/login']; the User table is not touched. *)
Theorem logout_ends_session (w : World) :
  exists w1 : World,
    Auth.logout w = (Ok tt, w1) /\
    users w1 = users w /\
    Auth.getCurrentUser w1 = (Ok None, w1) /\
    fst (Session.getCurrentUser w1) = Ok None /\
    fst (Session.isAuthenticated w1) = Ok false /\
    fst (Auth.requireAuth w1) = Aborts (NextRedirect "/login") /\
    fst (Session.requireAuth w1) = Aborts (NextRedirect "/login") /\
    Auth.getCurrentUser (set_jar (Next.deliver Auth.logoutHandler (jar w)) w)
      = (Ok None, set_jar (Next.deliver Auth.logoutHandler (jar w)) w).
Proof.
  eexists. split; [reflexivity|]. split; [reflexivity|].
  assert (jar (set_jar (delete Auth.COOKIE_NAME (jar w)) w) !! "session_token" = None)
    as Hnone by apply lookup_delete_eq.
  destruct (no_cookie_no_user _ Hnone) as (E1 & E2 & E3 & E4 & E5).
  repeat (split; [assumption|]). exact E1.
Qed.

(** X13. The admin guard checks presence only: [requireAdmin] returns true
    for any non-empty value of the [admin-session] cookie, whatever the
    session token, and raises ['Unauthorized - Admin access required'] when
    the cookie is absent or empty; [logout], [login] and [register] never
    set or clear that cookie. *)
Theorem requireAdmin_presence_only (w : World) :
  (forall c, jar w !! "admin-session" = Some c -> Next.value c <> "" ->
     fst (Session.requireAdmin w) = Returns true) /\
  (jar w !! "admin-session" = None \/
   (exists c, jar w !! "admin-session" = Some c /\ Next.value c = "") ->
     fst (Session.requireAdmin w)
       = Aborts (JsError "Unauthorized - Admin access required")) /\
  jar (snd (Auth.logout w)) !! "admin-session" = jar w !! "admin-session" /\
  (forall email password,
     jar (snd (Auth.login email password w)) !! "admin-session"
       = jar w !! "admin-session") /\
  (forall name email password,
     jar (snd (Auth.register name email password w)) !! "admin-session"
       = jar w !! "admin-session").
Proof.
  split; [|split; [|split; [|split]]].
  - intros [v o] Hc Hv. simpl in Hv.
    unfold Session.requireAdmin, cbind, lift, Session.getAdminSession, try_catch,
      bind, CookieStore.get_value, get, console_log, modify.
    rewrite Hc. simpl. destruct (String.eqb_spec v ""); [contradiction | reflexivity].
  - intros Hc.
    unfold Session.requireAdmin, cbind, lift, Session.getAdminSession, try_catch,
      bind, CookieStore.get_value, get, console_log, modify.
    destruct Hc as [-> | ([v o] & -> & Hv)]; [reflexivity|].
    simpl in Hv. subst v. reflexivity.
  - simpl. now apply lookup_delete_ne.
  - intros email password. rewrite login_run.
    destruct (outage w (queries w)); [reflexivity|].
    destruct (Prisma.lookup (Prisma.WhereEmail email) w) as [u|]; [|reflexivity].
    destruct (bcrypt_compare password (Schema.password u)); [|reflexivity].
    simpl. now apply lookup_insert_ne.
  - intros name email password. rewrite register_cases.
    destruct (outage w (queries w)); [reflexivity|].
    destruct (Prisma.lookup (Prisma.WhereEmail email) w) as [u|]; [reflexivity|].
    destruct (outage w (S (queries w))); [reflexivity|].
    simpl. now apply lookup_insert_ne.
Qed.

End GuardProperties.

(** ** The form handlers end to end *)
Section FormOutcomeProperties.
Context `{Platform}.

Lemma login_returns (email password : string) (w : World) :
  exists r w', Auth.login email password w = (Ok r, w').
Proof.
  rewrite login_run.
  destruct (outage w (queries w)); [eauto|].
  destruct (Prisma.lookup (Prisma.WhereEmail email) w) as [u|]; [|eauto].
  destruct (bcrypt_compare password (Schema.password u)); eauto.
Qed.

(** [handleLogin] once both fields are present and non-empty. *)
Lemma handleLogin_fields (formData : gmap string string) (e p : string) (w : World) :
  formData !! "email" = Some e -> formData !! "password" = Some p ->
  e <> "" -> p <> "" ->
  Auth.handleLogin formData w =
  if Auth.isValidEmail e
  then match Auth.login e p w with
       | (Ok r, w') =>
           (Ok (if Auth.success r
                then Auth.form_success
                else Auth.form_error (Js.or_else (Auth.message r) "Invalid credentials")),
            w')
       | (Throw _, w') =>
           (Ok (Auth.form_error "An unexpected error occurred"),
            set_console (console w' ++ ["Login error:"]) w')
       end
  else (Ok (Auth.form_error "Please enter a valid email address"), w).
Proof.
  intros He Hp Ne Np. unfold Auth.handleLogin. rewrite He, Hp. simpl.
  destruct (String.eqb_spec e ""); [contradiction|].
  destruct (String.eqb_spec p ""); [contradiction|]. simpl.
  destruct (Auth.isValidEmail e); simpl; [|reflexivity].
  unfold try_catch, bind, console_log, modify, ret.
  destruct (Auth.login e p w) as [[r|ex] w']; [|reflexivity].
  destruct (Auth.success r); reflexivity.
Qed.

Lemma handleRegister_valid (formData : gmap string string) (n e p : string) (w : World) :
  Spec.valid_form formData n e p ->
  Auth.handleRegister formData w = Spec.after_validation n e p w.
Proof.
  intros V.
  destruct (handleRegister_cases formData w)
    as [(m & _ & Hno & _) | (n' & e' & p' & V' & E)].
  - destruct (Hno n e p V).
  - destruct (valid_form_unique _ _ _ _ _ _ _ V V') as (-> & -> & ->). exact E.
Qed.

(** X14. The login form validates before any store access: with the email
    or the password missing or empty the answer is
    ['Email and password are required'], with an email not of the shape
    local@domain.tld it is ['Please enter a valid email address'], and in both
    cases the world (store round-trips included) is untouched; otherwise the
    answer is [login]'s result, success for success and its message
    otherwise.  The handler never raises. *)
Theorem handleLogin_validation (formData : gmap string string) (w : World) :
  (formData !! "email" = None \/ formData !! "email" = Some "" \/
   formData !! "password" = None \/ formData !! "password" = Some "" ->
   Auth.handleLogin formData w
     = (Ok (Auth.form_error "Email and password are required"), w)) /\
  (forall e p,
     formData !! "email" = Some e -> formData !! "password" = Some p ->
     e <> "" -> p <> "" -> ~ Spec.email_shape e ->
     Auth.handleLogin formData w
       = (Ok (Auth.form_error "Please enter a valid email address"), w)) /\
  (forall e p,
     formData !! "email" = Some e -> formData !! "password" = Some p ->
     p <> "" -> Spec.email_shape e ->
     exists r w',
       Auth.login e p w = (Ok r, w') /\
       Auth.handleLogin formData w =
       (Ok (if Auth.success r
            then Auth.form_success
            else Auth.form_error (Js.or_else (Auth.message r) "Invalid credentials")),
        w')) /\
  exists res w', Auth.handleLogin formData w = (Ok res, w').
Proof.
  split; [|split; [|split]].
  - intros Hmiss. unfold Auth.handleLogin.
    assert (Js.falsy (formData !! "email") || Js.falsy (formData !! "password") = true)
      as ->; [|reflexivity].
    apply orb_true_iff.
    destruct Hmiss as [-> | [-> | [-> | ->]]]; auto.
  - intros e p He Hp Ne Np Hshape.
    rewrite (handleLogin_fields _ _ _ _ He Hp Ne Np).
    destruct (Auth.isValidEmail e) eqn:Ev; [|reflexivity].
    apply EmailFacts.isValidEmail_spec in Ev. contradiction.
  - intros e p He Hp Np Hshape.
    assert (e <> "") as Ne.
    { destruct Hshape as (l & d & t & -> & [Hl _] & _).
      destruct l; [congruence | discriminate]. }
    rewrite (handleLogin_fields _ _ _ _ He Hp Ne Np).
    apply EmailFacts.isValidEmail_spec in Hshape. rewrite Hshape.
    destruct (login_returns e p w) as (r & w' & ->). eauto.
  - unfold Auth.handleLogin.
    destruct (Js.falsy (formData !! "email")) eqn:Fe; simpl; [eauto|].
    destruct (Js.falsy (formData !! "password")) eqn:Fp; simpl; [eauto|].
    destruct (negb _); [eauto|].
    unfold try_catch, bind, ret.
    match goal with
    | |- context [Auth.login ?e ?p w] =>
        destruct (login_returns e p w) as (r & w' & ->)
    end.
    destruct (negb (Auth.success r)); eauto.
Qed.

(** X15. What the login form answers for well-formed input, the store
    answering: ['Invalid credentials'] and no cookie when the email is
    unknown or the password does not compare equal to the stored digest,
    success and the session cookie set when it does. *)
Theorem handleLogin_outcomes (formData : gmap string string) (e p : string) (w : World) :
  formData !! "email" = Some e -> formData !! "password" = Some p ->
  p <> "" -> Spec.email_shape e ->
  Prisma.reachable w ->
  (Prisma.lookup (Prisma.WhereEmail e) w = None ->
   fst (Auth.handleLogin formData w) = Ok (Auth.form_error "Invalid credentials") /\
   jar (snd (Auth.handleLogin formData w)) = jar w) /\
  (forall u, Prisma.lookup (Prisma.WhereEmail e) w = Some u ->
     bcrypt_compare p (Schema.password u) = false ->
     fst (Auth.handleLogin formData w) = Ok (Auth.form_error "Invalid credentials") /\
     jar (snd (Auth.handleLogin formData w)) = jar w) /\
  (forall u, Prisma.lookup (Prisma.WhereEmail e) w = Some u ->
     bcrypt_compare p (Schema.password u) = true ->
     fst (Auth.handleLogin formData w) = Ok Auth.form_success /\
     jar (snd (Auth.handleLogin formData w)) !! Auth.COOKIE_NAME
       = Some (Spec.session_cookie u (clock w))).
Proof.
  intros He Hp Np Hshape R.
  assert (e <> "") as Ne.
  { destruct Hshape as (l & d & t & -> & [Hl _] & _).
    destruct l; [congruence | discriminate]. }
  rewrite (handleLogin_fields _ _ _ _ He Hp Ne Np).
  apply EmailFacts.isValidEmail_spec in Hshape. rewrite Hshape.
  rewrite login_run. unfold Prisma.reachable in R. rewrite R.
  split; [|split].
  - intros ->. split; reflexivity.
  - intros u -> ->. split; reflexivity.
  - intros u -> ->. split; [reflexivity|]. simpl. apply lookup_insert_eq.
Qed.

(** X16. What the registration form answers for a well-formed submission:
    with the email unused and the store answering, success, the new row
    appended and the session cookie set; with the email already used,
    ['User already exists'] and no new row; with the store failing, the
    generic registration message and no new row. *)
Theorem handleRegister_outcomes (formData : gmap string string) (n e p : string)
    (w : World) :
  Spec.valid_form formData n e p ->
  (outage w (queries w) = false -> outage w (S (queries w)) = false ->
   Prisma.lookup (Prisma.WhereEmail e) w = None ->
   fst (Auth.handleRegister formData w) = Ok Auth.form_success /\
   users (snd (Auth.handleRegister formData w))
     = users w ++ [Spec.new_user n e p w] /\
   jar (snd (Auth.handleRegister formData w)) !! Auth.COOKIE_NAME
     = Some (Spec.session_cookie (Spec.new_user n e p w) (clock w))) /\
  (forall u, outage w (queries w) = false ->
     Prisma.lookup (Prisma.WhereEmail e) w = Some u ->
     fst (Auth.handleRegister formData w) = Ok (Auth.form_error "User already exists") /\
     users (snd (Auth.handleRegister formData w)) = users w) /\
  (outage w (queries w) = true ->
   fst (Auth.handleRegister formData w)
     = Ok (Auth.form_error "An error occurred during registration") /\
   users (snd (Auth.handleRegister formData w)) = users w).
Proof.
  intros V. rewrite (handleRegister_valid _ _ _ _ _ V).
  unfold Spec.after_validation. rewrite register_cases.
  split; [|split].
  - intros -> -> ->. simpl. repeat split. apply lookup_insert_eq.
  - intros u -> ->. split; reflexivity.
  - intros ->. split; reflexivity.
Qed.

End FormOutcomeProperties.

(** ** What a valid email looks like *)
Section EmailProperties.

Lemma length_list_of (s : string) :
  String.length s = List.length (list_ascii_of_string s).
Proof. induction s as [|c s IH]; simpl; [reflexivity | now rewrite IH]. Qed.

Lemma plain_no_at (s : string) :
  Spec.plain s ->
  List.filter (Ascii.eqb "@") (list_ascii_of_string s) = [] /\
  Forall (fun c => Auth.is_space c = false) (list_ascii_of_string s) /\
  (1 <= List.length (list_ascii_of_string s))%nat.
Proof.
  intros [Hne Hall]. split; [|split].
  - induction Hall as [|c l Hc _ IH]; [reflexivity|].
    unfold Auth.space_or_at in Hc. apply orb_false_iff in Hc as [_ Hc].
    cbn [List.filter]. rewrite Ascii.eqb_sym, Hc. exact IH.
  - eapply Forall_impl; [exact Hall|]. intros c Hc.
    unfold Auth.space_or_at in Hc. now apply orb_false_iff in Hc as [Hs _].
  - destruct s; [congruence | simpl; lia].
Qed.

(** X17. An email the check accepts contains exactly one [@], at least one
    dot, no whitespace, and is at least 5 characters long. *)
Theorem valid_email_facts (e : string) :
  Auth.isValidEmail e = true ->
  Inv.count_char "@" e = 1%nat /\
  (1 <= Inv.count_char "." e)%nat /\
  Forall (fun c => Auth.is_space c = false) (list_ascii_of_string e) /\
  (5 <= String.length e)%nat.
Proof.
  intros Hv. apply EmailFacts.isValidEmail_spec in Hv.
  destruct Hv as (l & d & t & -> & Hl & Hd & Ht).
  apply plain_no_at in Hl as (Al & Sl & Ll), Hd as (Ad & Sd & Ld), Ht as (At & St & Lt).
  unfold Inv.count_char. rewrite length_list_of.
  rewrite !EmailFacts.list_of_append. simpl.
  rewrite !List.filter_app. simpl. rewrite !List.filter_app. simpl.
  rewrite Al, Ad, At.
  split; [reflexivity|]. split; [|split].
  - rewrite !length_app. simpl. lia.
  - apply Forall_app. split; [exact Sl|]. constructor; [reflexivity|].
    apply Forall_app. split; [exact Sd|]. constructor; [reflexivity | exact St].
  - rewrite length_app. simpl. rewrite length_app. simpl. lia.
Qed.

End EmailProperties.

(** ** The repository helpers: updates *)
Section RepositoryRoundTrips.
Context `{Platform}.

Lemma updateUser_cases (id : string) (d : Prisma.Update.data) (w : World) :
  Db.updateUser id d w =
  let failed := (Ok None, set_console (console w ++ ["Error updating user:"])
                                      (set_queries (S (queries w)) w)) in
  if outage w (queries w) then failed
  else
    match Prisma.lookup (Prisma.WhereId id) w with
    | None => failed
    | Some u =>
        let u' := Prisma.patch d (clock w) u in
        if existsb (fun r => String.eqb (Schema.email r) (Schema.email u')
                             && negb (String.eqb (Schema.user_id r) (Schema.user_id u))) (users w)
        then failed
        else (Ok (Some (Db.select_public u')),
              set_users (Inv.replaced u u' (users w)) (set_queries (S (queries w)) w))
    end.
Proof.
  unfold Db.updateUser, try_catch, bind, Prisma.user_update, Prisma.round_trip,
    bind, get, modify, ret, console_log, modify.
  simpl.
  destruct (outage w (queries w)); [reflexivity|]. simpl.
  change (Prisma.lookup (Prisma.WhereId id) _) with (Prisma.lookup (Prisma.WhereId id) w).
  destruct (Prisma.lookup (Prisma.WhereId id) w) as [u|]; [|reflexivity]. simpl.
  destruct (existsb _ (users w)); reflexivity.
Qed.

(** X20. An update to an email that belongs to another row is refused:
    [updateUser] returns null and the table is unchanged. *)
Theorem updateUser_email_taken (id : string) (d : Prisma.Update.data) (w : World)
    (u other : Schema.User) (e : string) :
  Prisma.reachable w ->
  Prisma.lookup (Prisma.WhereId id) w = Some u ->
  Prisma.Update.email d = Some e ->
  In other (users w) -> Schema.email other = e -> Schema.user_id other <> Schema.user_id u ->
  fst (Db.updateUser id d w) = Ok None /\
  users (snd (Db.updateUser id d w)) = users w.
Proof.
  intros R Hu He Hin Hoe Hoi.
  rewrite updateUser_cases. cbv zeta. unfold Prisma.reachable in R. rewrite R, Hu.
  assert (existsb
            (fun r => String.eqb (Schema.email r)
                        (Schema.email (Prisma.patch d (clock w) u))
                      && negb (String.eqb (Schema.user_id r) (Schema.user_id u))) (users w) = true)
    as ->; [|split; reflexivity].
  apply existsb_exists. exists other. split; [exact Hin|].
  simpl. rewrite He. simpl. apply andb_true_iff. split.
  - now apply String.eqb_eq.
  - apply negb_true_iff. now apply String.eqb_neq.
Qed.

End RepositoryRoundTrips.

(** ** Invariants of the User table *)
Section TableInvariants.
Context `{Platform}.

Lemma nodup_snoc {A} (l : list A) (x : A) :
  NoDup l -> ~ In x l -> NoDup (l ++ [x]).
Proof.
  intros Hl Hx. apply NoDup_app. split; [exact Hl|]. split.
  - intros y Hy Hin. apply list_elem_of_singleton in Hin. subst y.
    apply Hx. now apply list_elem_of_In.
  - apply NoDup_singleton.
Qed.

Lemma existsb_false_fresh_email (e : string) (us : list Schema.User) :
  existsb (Prisma.selects (Prisma.WhereEmail e)) us = false ->
  ~ In e (map Schema.email us).
Proof.
  intros Hex Hin. apply in_map_iff in Hin as (r & Hr & Hin).
  assert (existsb (Prisma.selects (Prisma.WhereEmail e)) us = true) as Ht; [|congruence].
  apply existsb_exists. exists r. split; [exact Hin|]. simpl. now apply String.eqb_eq.
Qed.

Lemma append_fresh_email (us : list Schema.User) (u : Schema.User) :
  NoDup (map Schema.email us) ->
  List.find (Prisma.selects (Prisma.WhereEmail (Schema.email u))) us = None ->
  NoDup (map Schema.email (us ++ [u])).
Proof.
  intros Hnd Hfree. rewrite map_app. simpl. apply nodup_snoc; [exact Hnd|].
  apply existsb_false_fresh_email, find_none_existsb, Hfree.
Qed.

(** X21. Emails stay unique: if no two rows of the User table share an
    email, this still holds after [register], [registerHandler],
    [handleRegister], [createUser] and [login], whatever their arguments and
    whether or not the store answers. *)
Theorem unique_emails_preserved (w : World) :
  Inv.unique_emails w ->
  (forall name email password,
     Inv.unique_emails (snd (Auth.register name email password w))) /\
  (forall name email password,
     Inv.unique_emails (snd (Auth.registerHandler name email password w))) /\
  (forall formData, Inv.unique_emails (snd (Auth.handleRegister formData w))) /\
  (forall data, Inv.unique_emails (snd (Db.createUser data w))) /\
  (forall email password, Inv.unique_emails (snd (Auth.login email password w))).
Proof.
  unfold Inv.unique_emails. intros Hnd.
  assert (forall name email password,
            NoDup (map Schema.email (users (snd (Auth.register name email password w)))))
    as Hreg.
  { intros name email password. rewrite register_cases.
    destruct (outage w (queries w)); [exact Hnd|].
    destruct (Prisma.lookup (Prisma.WhereEmail email) w) eqn:El; [exact Hnd|].
    destruct (outage w (S (queries w))); [exact Hnd|].
    simpl. now apply append_fresh_email. }
  split; [exact Hreg|]. split; [|split; [|split]].
  - intros name email password. rewrite registerHandler_cases. simpl.
    destruct (outage w (queries w)); [exact Hnd|].
    destruct (Prisma.lookup (Prisma.WhereEmail email) w) eqn:El; [exact Hnd|].
    destruct (outage w (S (queries w))); [exact Hnd|].
    simpl. now apply append_fresh_email.
  - intros formData.
    destruct (handleRegister_cases formData w)
      as [(m & _ & _ & ->) | (n & e & p & _ & ->)]; [exact Hnd|].
    unfold Spec.after_validation.
    specialize (Hreg n e p).
    destruct (Auth.register n e p w) as [[r|ex] w']; exact Hreg.
  - intros data.
    unfold Db.createUser, try_catch, bind, Prisma.user_create, Prisma.round_trip,
      bind, get, modify, ret, throw, console_log, modify.
    destruct (outage w (queries w)); [exact Hnd|]. simpl.
    destruct (existsb _ (users w)) eqn:Ex; [exact Hnd|]. simpl.
    rewrite map_app. simpl. apply nodup_snoc; [exact Hnd|].
    now apply existsb_false_fresh_email.
  - intros email password. rewrite login_run.
    destruct (outage w (queries w)); [exact Hnd|].
    destruct (Prisma.lookup (Prisma.WhereEmail email) w) as [u|]; [|exact Hnd].
    destruct (bcrypt_compare password (Schema.password u)); exact Hnd.
Qed.

Lemma replaced_ids (u u' : Schema.User) (us : list Schema.User) :
  Schema.user_id u' = Schema.user_id u ->
  map Schema.user_id (Inv.replaced u u' us) = map Schema.user_id us.
Proof.
  intros Hid. unfold Inv.replaced. rewrite map_map. apply map_ext. intros r.
  destruct (String.eqb_spec (Schema.user_id r) (Schema.user_id u)) as [Er|_]; [|reflexivity].
  now rewrite Hid, Er.
Qed.

Lemma replaced_none (u u' : Schema.User) (us : list Schema.User) :
  ~ In (Schema.user_id u) (map Schema.user_id us) -> Inv.replaced u u' us = us.
Proof.
  intros Hno. unfold Inv.replaced. rewrite <- (map_id us) at 2.
  apply map_ext_in. intros r Hr.
  destruct (String.eqb_spec (Schema.user_id r) (Schema.user_id u)) as [Er|_]; [|reflexivity].
  destruct Hno. rewrite <- Er. now apply in_map.
Qed.

Lemma replaced_emails (u u' : Schema.User) (us : list Schema.User) :
  NoDup (map Schema.user_id us) ->
  NoDup (map Schema.email us) ->
  (forall r, In r us -> Schema.email r = Schema.email u' -> Schema.user_id r = Schema.user_id u) ->
  NoDup (map Schema.email (Inv.replaced u u' us)).
Proof.
  induction us as [|a us IH]; intros Hids Hem Hno; [apply NoDup_nil_2|].
  apply NoDup_cons in Hids as [Ha Hids]. apply NoDup_cons in Hem as [Hae Hem].
  rewrite list_elem_of_In in Ha. rewrite list_elem_of_In in Hae.
  change (Inv.replaced u u' (a :: us))
    with ((if String.eqb (Schema.user_id a) (Schema.user_id u) then u' else a)
            :: Inv.replaced u u' us).
  destruct (String.eqb_spec (Schema.user_id a) (Schema.user_id u)) as [Ea|Na].
  - rewrite replaced_none by (rewrite <- Ea; exact Ha).
    simpl. apply NoDup_cons. split; [|exact Hem].
    rewrite list_elem_of_In. intros Hin. apply in_map_iff in Hin as (r & Hr & Hin).
    apply Ha. rewrite Ea, <- (Hno r (or_intror Hin) Hr). now apply in_map.
  - simpl. apply NoDup_cons. split.
    + rewrite list_elem_of_In. intros Hin. apply in_map_iff in Hin as (r' & Hr' & Hin).
      unfold Inv.replaced in Hin. apply in_map_iff in Hin as (r & <- & Hin).
      destruct (String.eqb_spec (Schema.user_id r) (Schema.user_id u)) as [Er|_].
      * apply Na. apply (Hno a (or_introl eq_refl)). now symmetry.
      * apply Hae. rewrite <- Hr'. now apply in_map.
    + apply IH; [exact Hids | exact Hem |]. intros r Hr. apply Hno. now right.
Qed.

(** X22. [updateUser] keeps the table well-formed: if ids and emails are
    unique before, they are unique after, whatever the id and the fields
    given and whether the update goes through, is refused or fails. *)
Theorem updateUser_preserves_uniqueness (id : string) (d : Prisma.Update.data)
    (w : World) :
  Inv.unique_ids w ->
  Inv.unique_emails w ->
  Inv.unique_ids (snd (Db.updateUser id d w)) /\
  Inv.unique_emails (snd (Db.updateUser id d w)).
Proof.
  unfold Inv.unique_ids, Inv.unique_emails. intros Hids Hem.
  rewrite updateUser_cases. cbv zeta.
  destruct (outage w (queries w)); [split; assumption|].
  destruct (Prisma.lookup (Prisma.WhereId id) w) as [u|]; [|split; assumption].
  destruct (existsb _ (users w)) eqn:Ex; [split; assumption|].
  simpl. split.
  - rewrite replaced_ids by reflexivity. exact Hids.
  - apply replaced_emails; [exact Hids | exact Hem |].
    intros r Hin Hr.
    destruct (String.eqb_spec (Schema.user_id r) (Schema.user_id u)) as [Er|Nr]; [exact Er|].
    assert (existsb
              (fun r => String.eqb (Schema.email r)
                          (Schema.email (Prisma.patch d (clock w) u))
                        && negb (String.eqb (Schema.user_id r) (Schema.user_id u)))
              (users w) = true) as Ht; [|congruence].
    apply existsb_exists. exists r. split; [exact Hin|].
    apply andb_true_iff. split.
    + now apply String.eqb_eq.
    + apply negb_true_iff. now apply String.eqb_neq.
Qed.

End TableInvariants.

(** ** The further properties on the reference platform *)
Section MoreWitnesses.
Import Reference Fixtures.
#[local] Existing Instance platform.

Lemma world_two_users : users world_two = [ada_row; bob_row].
Proof. reflexivity. Qed.

Lemma store_failure_is_generic_witness :
  fst (Auth.register "Ada" "ada@example.com" "longenough1" world_down)
    = Ok (Auth.failure "An error occurred during registration") /\
  users (snd (Auth.register "Ada" "ada@example.com" "longenough1" world_down))
    = users world_down.
Proof.
  pose proof (store_failure_is_generic "Ada" "ada@example.com" "longenough1" world_down
                (or_introl eq_refl)) as (_ & E1 & _ & E2 & _).
  exact (conj E1 E2).
Defined.

Lemma login_then_getCurrentUser_witness :
  exists w1 : World,
    Auth.login "ada@example.com" "longenough1" world_ada = (Ok (Auth.granted ada_row), w1) /\
    forall d : Z,
      d < 30 * 24 * 60 * 60 ->
      exists p : Jwt.Payload,
        Auth.getCurrentUser (advance d w1) = (Ok (Some p), advance d w1) /\
        fst (Session.getCurrentUser (advance d w1)) = Ok (Some p) /\
        Jwt.id (Jwt.claims p) = None /\
        Jwt.email (Jwt.claims p) = Schema.email ada_row /\
        Jwt.name (Jwt.claims p) = Schema.name ada_row.
Proof.
  apply (login_then_getCurrentUser ReferenceFacts.sign_verify ReferenceFacts.verify_empty
           "ada@example.com" "longenough1" world_ada ada_row); reflexivity.
Defined.

Lemma register_then_login_witness :
  exists (u : Schema.User) (w1 : World),
    Auth.register "Ada" "ada@example.com" "longenough1" world0 = (Ok (Auth.granted u), w1) /\
    fst (Auth.login "ada@example.com" "longenough1" w1) = Ok (Auth.granted u) /\
    forall other : string,
      bcrypt_compare other (Schema.password u) = false ->
      fst (Auth.login "ada@example.com" other w1) = Ok (Auth.failure "Invalid credentials").
Proof.
  apply (register_then_login ReferenceFacts.hash_compare
           "Ada" "ada@example.com" "longenough1" world0); reflexivity.
Defined.

Lemma register_twice_conflict_witness :
  exists (u : Schema.User) (w1 : World),
    Auth.register "Ada" "ada@example.com" "longenough1" world0 = (Ok (Auth.granted u), w1) /\
    fst (Auth.register "Eve" "ada@example.com" "evespassword" w1)
      = Ok (Auth.failure "User already exists") /\
    users (snd (Auth.register "Eve" "ada@example.com" "evespassword" w1)) = users w1 /\
    fst (Auth.registerHandler "Eve" "ada@example.com" "evespassword" w1)
      = Ok (Next.json (Auth.failure "User already exists") 409) /\
    users (snd (Auth.registerHandler "Eve" "ada@example.com" "evespassword" w1)) = users w1.
Proof.
  apply (register_twice_conflict "Ada" "ada@example.com" "longenough1" "Eve" "evespassword"
           world0); reflexivity.
Defined.

Lemma token_valid_exactly_30_days_witness :
  exists token,
    Auth.generateToken ada world0 = (Ok token, world0) /\
    (clock (advance 2592000 world0) < clock world0 + 30 * 24 * 60 * 60 ->
     exists p, fst (Auth.verifyToken token (advance 2592000 world0)) = Ok (Some p) /\
               Jwt.id (Jwt.claims p) = Auth.id ada /\
               Jwt.exp p = clock world0 + 30 * 24 * 60 * 60) /\
    (clock world0 + 30 * 24 * 60 * 60 <= clock (advance 2592000 world0) ->
     fst (Auth.verifyToken token (advance 2592000 world0)) = Ok None /\
     fst (Session.verifyToken token (advance 2592000 world0)) = Ok None).
Proof.
  apply (token_valid_exactly_30_days ReferenceFacts.sign_verify ReferenceFacts.expiry
           ada world0 (advance 2592000 world0)).
Defined.

Lemma requireAuth_guard_witness :
  fst (Auth.requireAuth world0) = Aborts (NextRedirect "/login") /\
  exists p, fst (Auth.requireAuth world_ada) = Returns p /\
            Jwt.email (Jwt.claims p) = "ada@example.com".
Proof.
  split.
  - rewrite (proj1 (requireAuth_guard ReferenceFacts.verify_empty world0)). reflexivity.
  - rewrite (proj1 (requireAuth_guard ReferenceFacts.verify_empty world_ada)).
    eexists. split; reflexivity.
Defined.

Lemma handleLogin_outcomes_witness :
  fst (Auth.handleLogin (login_form "ada@example.com" "longenough1") world_ada)
    = Ok Auth.form_success /\
  fst (Auth.handleLogin (login_form "ada@example.com" "wrongpass") world_ada)
    = Ok (Auth.form_error "Invalid credentials") /\
  fst (Auth.handleLogin (login_form "bob@example.com" "longenough1") world_ada)
    = Ok (Auth.form_error "Invalid credentials").
Proof.
  assert (Spec.email_shape "ada@example.com") as Sa.
  { exists "ada", "example", "com". split; [reflexivity|].
    repeat split; try discriminate; vm_compute; repeat constructor. }
  assert (Spec.email_shape "bob@example.com") as Sb.
  { exists "bob", "example", "com". split; [reflexivity|].
    repeat split; try discriminate; vm_compute; repeat constructor. }
  split; [|split].
  - apply (proj2 (proj2 (handleLogin_outcomes
                           (login_form "ada@example.com" "longenough1")
                           "ada@example.com" "longenough1" world_ada
                           eq_refl eq_refl ltac:(discriminate) Sa eq_refl))
             ada_row); reflexivity.
  - apply (proj1 (proj2 (handleLogin_outcomes
                           (login_form "ada@example.com" "wrongpass")
                           "ada@example.com" "wrongpass" world_ada
                           eq_refl eq_refl ltac:(discriminate) Sa eq_refl))
             ada_row); reflexivity.
  - apply (proj1 (handleLogin_outcomes
                    (login_form "bob@example.com" "longenough1")
                    "bob@example.com" "longenough1" world_ada
                    eq_refl eq_refl ltac:(discriminate) Sb eq_refl)); reflexivity.
Defined.

Lemma handleRegister_outcomes_witness :
  fst (Auth.handleRegister form8 world0) = Ok Auth.form_success /\
  fst (Auth.handleRegister form8 world_ada) = Ok (Auth.form_error "User already exists") /\
  fst (Auth.handleRegister form8 world_down)
    = Ok (Auth.form_error "An error occurred during registration").
Proof.
  assert (Spec.valid_form form8 "Ada" "ada@example.com" "eight888") as V.
  { unfold Spec.valid_form.
    repeat (split; [first [reflexivity | discriminate]|]).
    split; [|vm_compute; lia].
    exists "ada", "example", "com". split; [reflexivity|].
    repeat split; try discriminate; vm_compute; repeat constructor. }
  split; [|split].
  - apply (proj1 (handleRegister_outcomes form8 _ _ _ world0 V)); reflexivity.
  - apply (proj1 (proj2 (handleRegister_outcomes form8 _ _ _ world_ada V)) ada_row);
      reflexivity.
  - apply (proj2 (proj2 (handleRegister_outcomes form8 _ _ _ world_down V))); reflexivity.
Defined.

Lemma valid_email_facts_witness :
  Inv.count_char "@" "ada@example.com" = 1%nat /\
  (1 <= Inv.count_char "." "ada@example.com")%nat /\
  Forall (fun c => Auth.is_space c = false) (list_ascii_of_string "ada@example.com") /\
  (5 <= String.length "ada@example.com")%nat.
Proof. apply (valid_email_facts "ada@example.com"). reflexivity. Defined.

Lemma updateUser_email_taken_witness :
  fst (Db.updateUser (Schema.user_id bob_row) take_email world_two) = Ok None /\
  users (snd (Db.updateUser (Schema.user_id bob_row) take_email world_two)) = users world_two.
Proof.
  apply (updateUser_email_taken (Schema.user_id bob_row) take_email world_two bob_row ada_row
           "ada@example.com"); try reflexivity.
  - left. reflexivity.
  - discriminate.
Defined.

Lemma unique_emails_preserved_witness :
  Inv.unique_emails (snd (Auth.register "Bob" "bob@example.com" "bobspassword" world_ada)) /\
  Inv.unique_emails (snd (Auth.register "Eve" "ada@example.com" "evespassword" world_ada)).
Proof.
  assert (Inv.unique_emails world_ada) as Hu by apply NoDup_singleton.
  split; apply (proj1 (unique_emails_preserved world_ada Hu)).
Defined.

Lemma updateUser_preserves_uniqueness_witness :
  Inv.unique_ids (snd (Db.updateUser "u0." rename world_two)) /\
  Inv.unique_emails (snd (Db.updateUser "u0." rename world_two)).
Proof.
  apply (updateUser_preserves_uniqueness "u0." rename world_two).
  - apply NoDup_cons. split; [|apply NoDup_singleton].
    rewrite list_elem_of_singleton. discriminate.
  - apply NoDup_cons. split; [|apply NoDup_singleton].
    rewrite list_elem_of_singleton. discriminate.
Defined.

End MoreWitnesses.

(** ** The session lookup is stateless *)
Section StatelessProperties.
Context `{Platform}.

(** X23. The session lookup never consults the store: [getCurrentUser]
    (either copy) makes no store round-trip, and its result is the same
    whatever the User table holds and whether or not the store is reachable;
    it depends on the cookies and the clock only. *)
Theorem session_lookup_is_stateless (w : World) (table : list Schema.User)
    (failing : nat -> bool) :
  let w' := mkWorld table (queries w) failing (jar w) (clock w) (entropy w) (console w) in
  fst (Auth.getCurrentUser w') = fst (Auth.getCurrentUser w) /\
  fst (Session.getCurrentUser w') = fst (Session.getCurrentUser w) /\
  queries (snd (Auth.getCurrentUser w)) = queries w /\
  queries (snd (Session.getCurrentUser w)) = queries w.
Proof.
  unfold Auth.getCurrentUser, Auth.getSession, Session.getCurrentUser,
    Session.getSession, try_catch, bind, CookieStore.get_value, get, console_log,
    modify, Auth.COOKIE_NAME, Session.COOKIE_NAME.
  simpl.
  destruct (jar w !! "session_token") as [[v o]|]; simpl; [|repeat split].
  destruct (String.eqb v ""); simpl; [repeat split|].
  rewrite !verifyToken_run, !session_verifyToken_run. simpl.
  destruct (jwt_verify v Auth.JWT_SECRET (clock w)); simpl; repeat split.
Qed.

End StatelessProperties.
